(** * asana2sql: the [Project] synchronisation engine

    A shallow embedding of [asana2sql/Project.py].  The class [Project]
    talks to two collaborators, the Asana client and the database wrapper,
    and keeps two run-scoped caches.  Methods become computations in a
    small state-and-exception monad; every call to a collaborator and
    every [print] is recorded, in call order, in a trace. *)

From stdpp Require Import base option list gmap sets strings.
From Stdlib Require Import ZArith Ascii.

Local Open Scope Z_scope.

(** ** Python values *)

(** The scalar values a task attribute or a database cell can hold.  Python's
    [bool] is a subclass of [int] ([True == 1], same hash, same truth value,
    same [TypeError] when added to a [str]), so [True] and [False] are
    [PInt 1] and [PInt 0]. *)
Inductive pyval : Type :=
  | PNone
  | PInt (n : Z)
  | PStr (s : string).

#[global] Instance pyval_eq_dec : EqDecision pyval.
Proof. solve_decision. Defined.

#[global] Instance pyval_countable : Countable pyval.
Proof.
  refine (inj_countable'
    (λ v, match v with
          | PNone => inl tt
          | PInt n => inr (inl n)
          | PStr s => inr (inr s)
          end)
    (λ x, match x with
          | inl _ => PNone
          | inr (inl n) => PInt n
          | inr (inr s) => PStr s
          end) _).
  by intros [].
Defined.

(** Python's truth value: [None], [0] and the empty string are falsy. *)
Definition truthy (v : pyval) : bool :=
  match v with
  | PNone => false
  | PInt n => negb (n =? 0)
  | PStr s => negb (String.eqb s EmptyString)
  end.

(** Truth value of a [str]-or-[None] attribute, [None] being [EmptyString]. *)
Definition truthy_str (s : string) : bool := negb (String.eqb s EmptyString).

(** A task record: a [dict] from remote field name to value. *)
Abbreviation task := (gmap string pyval).

(** Project metadata: a [dict]; only its ["name"], a string, is read. *)
Abbreviation project_data := (gmap string string).

(** A row returned by the database: a sequence of cells. *)
Abbreviation row := (list pyval).

(** [sep.join(items)] *)
Definition join (sep : string) (items : list string) : string :=
  String.concat sep items.

Definition dquote : string := String (Ascii.ascii_of_nat 34) EmptyString.

(** ** Exceptions, results, collaborators *)

Inductive exn : Type :=
  | NoSuchProjectException (project_id : Z)
  | NotFoundError
  | AsanaError (msg : string)
  | KeyError (key : string)
  | IndexError
  | TypeError.

#[global] Instance exn_eq_dec : EqDecision exn.
Proof. solve_decision. Defined.

Inductive result (A : Type) : Type :=
  | Ok (a : A)
  | Raise (e : exn).
Arguments Ok {A} a.
Arguments Raise {A} e.

(** What a call to the Asana client does: answer, raise
    [asana.error.NotFoundError], or raise some other client error. *)
Inductive api_result (A : Type) : Type :=
  | ApiOk (a : A)
  | ApiNotFound
  | ApiError (msg : string).
Arguments ApiOk {A} a.
Arguments ApiNotFound {A}.
Arguments ApiError {A} msg.

(** The remote service is read-only for this tool and is taken to answer
    the same request the same way throughout a run. *)
Record asana_client : Type := {
  find_by_id : Z → api_result project_data;
  find_by_project : Z → string → api_result (list task);
  subtasks : pyval → string → api_result (list task)
}.

(** The database wrapper: [read] answers a query with rows; [write] is a
    command sink: a statement sent is recorded in the trace, and what the
    database makes of it (an error included) is outside this model.  A run
    that returns here is thus a run in which the database accepted every
    statement; a run that the database aborts has sent a prefix of the
    statements recorded here, and the properties below say nothing about
    how it ends. *)
Record db_client : Type := {
  read : string → list row
}.

(** The command-line configuration ([args]); [None] and the empty string, both
    falsy, are [EmptyString]. *)
Record config : Type := {
  project_id : Z;
  table_name_arg : string
}.

(** A field object.  [sql_name] is the column name of a direct field;
    an indirect field has none ([None], falsy: [EmptyString]). *)
Record field : Type := {
  sql_name : string;
  required_fields : list string;
  get_data_from_task : task → pyval
}.

(** ** Trace and state *)

Inductive event : Type :=
  | ApiFindById (pid : Z)
  | ApiFindByProject (pid : Z) (fields : string)
  | ApiSubtasks (task_id : pyval) (fields : string)
  | Print (v : pyval)
  | DbRead (sql : string)
  | DbWrite (sql : string) (params : list pyval)
  | IndirectField (index : nat) (t : task).

Record state : Type := {
  project_data_cache : option project_data;
  task_cache : option (list task);
  trace : list event
}.

Definition M (A : Type) : Type := state → result A * state.

Definition ret {A} (a : A) : M A := λ s, (Ok a, s).

Definition raise {A} (e : exn) : M A := λ s, (Raise e, s).

Definition bind {A B} (m : M A) (k : A → M B) : M B :=
  λ s, match m s with
       | (Ok a, s') => k a s'
       | (Raise e, s') => (Raise e, s')
       end.

Notation "x <- m ;; k" := (bind m (λ x, k))
  (at level 100, m at next level, right associativity).
Notation "m ;;; k" := (bind m (λ _, k))
  (at level 100, right associativity).

Definition get_state : M state := λ s, (Ok s, s).

Definition emit (e : event) : M unit :=
  λ s, (Ok tt, {| project_data_cache := project_data_cache s;
                  task_cache := task_cache s;
                  trace := trace s ++ [e] |}).

Definition set_project_data_cache (d : project_data) : M unit :=
  λ s, (Ok tt, {| project_data_cache := Some d;
                  task_cache := task_cache s;
                  trace := trace s |}).

Definition set_task_cache (ts : list task) : M unit :=
  λ s, (Ok tt, {| project_data_cache := project_data_cache s;
                  task_cache := Some ts;
                  trace := trace s |}).

Definition lift_result {A} (r : result A) : M A := λ s, (r, s).

(** [for x in xs: body(x)] *)
Fixpoint for_each {A} (xs : list A) (body : A → M unit) : M unit :=
  match xs with
  | [] => ret tt
  | x :: xs' => body x ;;; for_each xs' body
  end.

(** A call to the client: the request is recorded, then its outcome. *)
Definition api_call {A} (e : event) (r : api_result A) : M A :=
  emit e ;;;
  match r with
  | ApiOk a => ret a
  | ApiNotFound => raise NotFoundError
  | ApiError msg => raise (AsanaError msg)
  end.

(** [d[key]] on a task record *)
Definition subscript (t : task) (key : string) : M pyval :=
  match t !! key with
  | Some v => ret v
  | None => raise (KeyError key)
  end.

(** [d.get(key)] *)
Definition dict_get (t : task) (key : string) : pyval :=
  default PNone (t !! key).

Definition initial_state : state :=
  {| project_data_cache := None; task_cache := None; trace := [] |}.

(** ** Statement templates *)

(** [INSERT_OR_REPLACE_TEMPLATE.format(...)]; the conflict target is the
    literal [gid] of the template. *)
Definition INSERT_OR_REPLACE_TEMPLATE
    (table_name columns values set_command : string) : string :=
  "INSERT INTO " +:+ dquote +:+ table_name +:+ dquote +:+
  " (" +:+ columns +:+ ") VALUES (" +:+ values +:+
  ") ON CONFLICT (gid) DO UPDATE SET " +:+ set_command +:+ ";".

Definition SELECT_TEMPLATE (columns table_name : string) : string :=
  "SELECT " +:+ columns +:+ " FROM " +:+ dquote +:+ table_name +:+ dquote +:+
  ";".

Definition DELETE_TEMPLATE (table_name id_column : string) : string :=
  "DELETE FROM " +:+ dquote +:+ table_name +:+ dquote +:+ " WHERE " +:+
  id_column +:+ " = ?;".

(** ** The class [Project] *)

Record Project : Type := {
  _asana_client : asana_client;
  _db_client : db_client;
  _config : config;
  _direct_fields : list field;
  _indirect_fields : list field
}.

Definition _project_id (p : Project) : Z := project_id (_config p).
Definition _table_name (p : Project) : string := table_name_arg (_config p).

(** [Project.__init__]: [_add_field] sorts each field, in order, into the
    direct or the indirect list by the truth value of its [sql_name]; both
    caches start empty ([initial_state]). *)
Definition new_Project (client : asana_client) (db : db_client)
    (cfg : config) (fields : list field) : Project :=
  {| _asana_client := client;
     _db_client := db;
     _config := cfg;
     _direct_fields := List.filter (λ f, truthy_str (sql_name f)) fields;
     _indirect_fields :=
       List.filter (λ f, negb (truthy_str (sql_name f))) fields |}.

(** [try: m  except asana.error.NotFoundError: handler] *)
Definition except_NotFoundError {A} (m : M A) (handler : M A) : M A :=
  λ s, match m s with
       | (Raise NotFoundError, s') => handler s'
       | r => r
       end.

Definition _project_data (p : Project) : M project_data :=
  s <- get_state ;;
  match project_data_cache s with
  | None =>
      d <- except_NotFoundError
             (api_call (ApiFindById (_project_id p))
                       (find_by_id (_asana_client p) (_project_id p)))
             (raise (NoSuchProjectException (_project_id p))) ;;
      set_project_data_cache d ;;;
      ret d
  | Some d => ret d
  end.

(** The union of the remote field names of all fields, as a set. *)
Definition _required_fields (p : Project) : gset string :=
  list_to_set
    (flat_map required_fields (_direct_fields p ++ _indirect_fields p)).

(** [",".join(self._required_fields())]: the set is read in its iteration
    order, here that of [elements]. *)
Definition fields_arg (p : Project) : string :=
  join "," (elements (_required_fields p)).

(** [self._task_cache.append(t)] *)
Definition task_cache_append (t : task) : M unit :=
  λ s, (Ok tt, {| project_data_cache := project_data_cache s;
                  task_cache := Some (default [] (task_cache s) ++ [t]);
                  trace := trace s |}).

(** [return self._task_cache], read once the cache is set. *)
Definition read_task_cache : M (list task) :=
  λ s, (Ok (default [] (task_cache s)), s).

Definition _tasks (p : Project) : M (list task) :=
  s <- get_state ;;
  match task_cache s with
  | None =>
      ts <- api_call (ApiFindByProject (_project_id p) (fields_arg p))
              (find_by_project (_asana_client p) (_project_id p)
                 (fields_arg p)) ;;
      set_task_cache ts ;;;
      project_tasks <-
        api_call (ApiFindByProject (_project_id p) (fields_arg p))
          (find_by_project (_asana_client p) (_project_id p)
             (fields_arg p)) ;;
      for_each project_tasks (λ t,
        task_id <- subscript t "gid" ;;
        sub_tasks <- api_call (ApiSubtasks task_id (fields_arg p))
                       (subtasks (_asana_client p) task_id (fields_arg p)) ;;
        for_each sub_tasks (λ sub_task,
          name <- subscript sub_task "name" ;;
          emit (Print name) ;;;
          task_cache_append sub_task))
  | Some _ => ret tt
  end ;;;
  read_task_cache.

(** ** The command line, [asana2sql.py]: the counting client *)

(** What [RequestCountingClient] adds to the Asana [Client]: a flag and a
    counter. *)
Record RequestCountingClient : Type := {
  _dump_api : bool;
  _num_requests : Z
}.

Definition num_requests (c : RequestCountingClient) : Z := _num_requests c.

(** [RequestCountingClient.request(method, path)]: the request is echoed
    when [_dump_api] is set, counted, and handed to [Client.request], whose
    outcome [parent] (a response or an exception) is the outcome of the
    call.  The result holds the client after the call and the lines
    printed. *)
Definition request {A} (c : RequestCountingClient) (method path : string)
    (parent : result A) : result A * RequestCountingClient * list string :=
  (parent,
   {| _dump_api := _dump_api c; _num_requests := _num_requests c + 1 |},
   if _dump_api c then [method +:+ ": " +:+ path] else []).

(** A series of requests on one client, each with the outcome of its
    [Client.request]: the client at the end and all lines printed. *)
Fixpoint requests {A} (c : RequestCountingClient)
    (calls : list (string * string * result A))
    : RequestCountingClient * list string :=
  match calls with
  | [] => (c, [])
  | (method, path, parent) :: calls' =>
      let '(_, c', out) := request c method path parent in
      let '(c'', out') := requests c' calls' in
      (c'', out ++ out')
  end.

(** The values of keyword arguments: those [build_asana_client] puts into
    its [options], and [None]. *)
Inductive option_value : Type :=
  | OptNone
  | OptSession (access_token : string)
  | OptStr (s : string)
  | OptBool (b : bool).

Definition option_truthy (v : option_value) : bool :=
  match v with
  | OptNone => false
  | OptSession _ => true
  | OptStr s => truthy_str s
  | OptBool b => b
  end.

(** The arguments [build_asana_client] reads; an absent [base_url] is
    [EmptyString], an absent [verify] is [None]. *)
Record client_args : Type := {
  args_access_token : string;
  args_base_url : string;
  args_verify : option bool;
  args_dump_api : bool
}.

(** The [options] dictionary of [build_asana_client]. *)
Definition build_options (a : client_args) : gmap string option_value :=
  let options0 : gmap string option_value :=
    {["session" := OptSession (args_access_token a)]} in
  let options1 :=
    if truthy_str (args_base_url a)
    then <["base_url" := OptStr (args_base_url a)]> options0
    else options0 in
  let options2 :=
    match args_verify a with
    | Some v => <["verify" := OptBool v]> options1
    | None => options1
    end in
  if args_dump_api a
  then <["dump_api" := OptBool (args_dump_api a)]> options2
  else options2.

(** [RequestCountingClient] called with the keyword arguments [kwargs],
    that is [__init__(self, dump_api=False, session=None, auth=None,
    **options)]:
    the three named keywords are taken out of [kwargs], each with its
    default, and the rest is [options].  [dump_api] is kept by the new
    client; [Client.__init__] is called with [session=session],
    [auth=auth] and [**options].  The result is the new client and the
    keywords [Client.__init__] receives. *)
Definition new_RequestCountingClient (kwargs : gmap string option_value)
    : RequestCountingClient * gmap string option_value :=
  let dump_api := default (OptBool false) (kwargs !! "dump_api") in
  let session := default OptNone (kwargs !! "session") in
  let auth := default OptNone (kwargs !! "auth") in
  let options := delete "auth" (delete "session" (delete "dump_api" kwargs)) in
  ({| _dump_api := option_truthy dump_api; _num_requests := 0 |},
   <["session" := session]> (<["auth" := auth]> options)).

Definition build_asana_client (a : client_args)
    : RequestCountingClient * gmap string option_value :=
  new_RequestCountingClient (build_options a).

(** ** A small world for concrete runs *)

(** Modelled from the spec: [util.sql_safe_name] is defined in
    [asana2sql/util.py], a file that is not available.  The spec says it
    sanitizes a name into a SQL-safe identifier by stripping or replacing the
    characters that are illegal in one; this instance replaces every character
    that is not a letter, a digit or an underscore by an underscore.  The
    general results below hold for any [sql_safe_name]; this one only serves
    the concrete runs. *)
Definition sql_safe_char (c : Ascii.ascii) : Ascii.ascii :=
  let n := Ascii.nat_of_ascii c in
  if ((48 <=? n) && (n <=? 57) || (65 <=? n) && (n <=? 90)
      || (97 <=? n) && (n <=? 122) || (n =? 95))%nat
  then c
  else Ascii.ascii_of_nat 95.

Fixpoint sql_safe_name_model (name : string) : string :=
  match name with
  | EmptyString => EmptyString
  | String c rest => String (sql_safe_char c) (sql_safe_name_model rest)
  end.

(** A direct field that stores the task attribute [key] in column [column]. *)
Definition attribute_field (column key : string) : field :=
  {| sql_name := column; required_fields := [key];
     get_data_from_task := λ t, dict_get t key |}.

Definition gid_field : field := attribute_field "gid" "gid".
Definition name_field : field := attribute_field "name" "name".
Definition notes_field : field := attribute_field "notes" "notes".
Definition likes_field : field := attribute_field "num_likes" "num_likes".

(** An indirect field: no column, called for its effect only. *)
Definition followers_field : field :=
  {| sql_name := EmptyString; required_fields := ["followers"; "gid"];
     get_data_from_task := λ _, PNone |}.

Definition mk_task (gid name : string) : task :=
  <["gid" := PStr gid]> (<["name" := PStr name]> ∅).

Definition task2 : task := mk_task "2" "two".
Definition task3 : task := mk_task "3" "three".
Definition task4 : task := mk_task "4" "four".

(** Project 7 holds tasks 2, 3 and 4, none with sub-tasks; the table holds
    the identifiers 1, 2 and 3. *)
Definition client234 : asana_client :=
  {| find_by_id := λ pid,
       if pid =? 7 then ApiOk (<["name" := "My Project"]> ∅) else ApiNotFound;
     find_by_project := λ pid _,
       if pid =? 7 then ApiOk [task2; task3; task4] else ApiNotFound;
     subtasks := λ _ _, ApiOk [] |}.

Definition db123 : db_client :=
  {| read := λ _, [[PStr "1"]; [PStr "2"]; [PStr "3"]] |}.

Definition project234 : Project :=
  new_Project client234 db123
    {| project_id := 7; table_name_arg := "tasks" |}
    [gid_field; followers_field; name_field].

(** The same project with no configured table name, and with a configured
    name that is not a safe identifier. *)
Definition project234_unnamed : Project :=
  new_Project client234 db123
    {| project_id := 7; table_name_arg := EmptyString |}
    [gid_field; followers_field; name_field].

Definition project234_spaced : Project :=
  new_Project client234 db123
    {| project_id := 7; table_name_arg := "my table" |}
    [gid_field; followers_field; name_field].

(** A project id the service does not know. *)
Definition project_missing : Project :=
  new_Project client234 db123
    {| project_id := 8; table_name_arg := EmptyString |}
    [gid_field; name_field].

(** The same tasks and table, with a first direct field whose column is [id]. *)
Definition id_field : field := attribute_field "id" "gid".

Definition project_id_column : Project :=
  new_Project client234 db123
    {| project_id := 7; table_name_arg := "tasks" |}
    [id_field; name_field].

(** Project 7 with one top-level task that has one sub-task. *)
Definition parent_task : task := mk_task "10" "parent".
Definition child_task : task := mk_task "11" "child".

Definition client_parent_child : asana_client :=
  {| find_by_id := λ _, ApiNotFound;
     find_by_project := λ _ _, ApiOk [parent_task];
     subtasks := λ task_id _,
       if decide (task_id = PStr "10") then ApiOk [child_task] else ApiOk [] |}.

Definition project_parent_child : Project :=
  new_Project client_parent_child db123
    {| project_id := 7; table_name_arg := "tasks" |}
    [gid_field; followers_field; name_field].

(** Project 7 with a single top-level record that has no ["gid"]. *)
Definition nameless_gid_task : task := <["name" := PStr "no gid"]> ∅.

Definition client_no_gid : asana_client :=
  {| find_by_id := λ _, ApiNotFound;
     find_by_project := λ _ _, ApiOk [nameless_gid_task];
     subtasks := λ _ _, ApiOk [] |}.

Definition project_no_gid : Project :=
  new_Project client_no_gid db123
    {| project_id := 7; table_name_arg := "tasks" |}
    [gid_field; name_field].



(** Task 2 renamed to a text that holds a single quote; it has no notes. *)
Definition task2_quoted : task := mk_task "2" "x', notes = NULL --".

Definition project_name_notes : Project :=
  new_Project client234 db123
    {| project_id := 7; table_name_arg := "tasks" |}
    [gid_field; name_field; notes_field].


(** An instance of [field_definition_sql] for the concrete runs: every
    column is a text column. *)
Definition text_column_sql (f : field) : string :=
  sql_name f +:+ " VARCHAR(1024)".

(** Project 7 with a top-level task whose one sub-task has no ["name"]. *)
Definition unnamed_child_task : task := <["gid" := PStr "12"]> ∅.

Definition client_unnamed_child : asana_client :=
  {| find_by_id := λ _, ApiNotFound;
     find_by_project := λ _ _, ApiOk [parent_task];
     subtasks := λ task_id _,
       if decide (task_id = PStr "10") then ApiOk [unnamed_child_task]
       else ApiOk [] |}.

Definition project_unnamed_child : Project :=
  new_Project client_unnamed_child db123
    {| project_id := 7; table_name_arg := "tasks" |}
    [gid_field].

(** Project 7 with tasks 2, 3 and 4, task 3 having a number of likes. *)
Definition task3_liked : task := <["num_likes" := PInt 5]> task3.

Definition client_liked : asana_client :=
  {| find_by_id := λ _, ApiNotFound;
     find_by_project := λ _ _, ApiOk [task2; task3_liked; task4];
     subtasks := λ _ _, ApiOk [] |}.

Definition project_liked : Project :=
  new_Project client_liked db123
    {| project_id := 7; table_name_arg := "tasks" |}
    [gid_field; likes_field].

(** Project 7 with no task at all. *)
Definition client_empty : asana_client :=
  {| find_by_id := λ _, ApiNotFound;
     find_by_project := λ _ _, ApiOk [];
     subtasks := λ _ _, ApiOk [] |}.

Definition project_empty : Project :=
  new_Project client_empty db123
    {| project_id := 7; table_name_arg := "tasks" |}
    [gid_field; name_field].

(** A project configured with an indirect field only. *)
Definition project_no_column : Project :=
  new_Project client234 db123
    {| project_id := 7; table_name_arg := "tasks" |}
    [followers_field].

Section WithUtil.

(** [util.sql_safe_name], defined in [asana2sql/util.py]. *)
Variable sql_safe_name : string → string.

Definition project_name (p : Project) : M string :=
  d <- _project_data p ;;
  match d !! "name" with
  | Some n => ret n
  | None => raise (KeyError "name")
  end.

Definition table_name (p : Project) : M string :=
  n <- (if truthy_str (_table_name p) then ret (_table_name p)
        else project_name p) ;;
  ret (sql_safe_name n).

(** [str + v]: only a [str] can be appended to a [str]. *)
Definition str_add (s : string) (v : pyval) : result string :=
  match v with
  | PStr s' => Ok (s +:+ s')
  | _ => Raise TypeError
  end.

(** The loop of [insert_or_replace] that builds [set_command]. *)
Fixpoint set_command_loop (fields : list field) (t : task)
    (set_command : string) : result string :=
  match fields with
  | [] => Ok set_command
  | f :: fields' =>
      let set_command1 :=
        if negb (String.eqb set_command EmptyString)
           && truthy (get_data_from_task f t)
        then set_command +:+ ", "
        else set_command in
      if truthy (get_data_from_task f t) then
        match str_add (set_command1 +:+ " " +:+ sql_name f +:+ " = " +:+ "'")
                      (get_data_from_task f t) with
        | Ok s => set_command_loop fields' t (s +:+ "'")
        | Raise e => Raise e
        end
      else set_command_loop fields' t set_command1
  end.

Definition insert_or_replace (p : Project) (t : task) : M unit :=
  let columns := join "," (map sql_name (_direct_fields p)) in
  let values := join "," (map (λ _, "?") (_direct_fields p)) in
  set_command <-
    lift_result (set_command_loop (_direct_fields p) t EmptyString) ;;
  let params := map (λ f, get_data_from_task f t) (_direct_fields p) in
  tn <- table_name p ;;
  emit (DbWrite (INSERT_OR_REPLACE_TEMPLATE tn columns values set_command)
                params) ;;;
  for_each (imap (λ i _, i) (_indirect_fields p))
           (λ i, emit (IndirectField i t)).

Definition export (p : Project) : M unit :=
  ts <- _tasks p ;;
  for_each ts (insert_or_replace p).

(** [self._direct_fields[0]] *)
Definition _id_field (p : Project) : M field :=
  match _direct_fields p with
  | f :: _ => ret f
  | [] => raise IndexError
  end.

Definition delete (p : Project) (task_id : pyval) : M unit :=
  id_field <- _id_field p ;;
  tn <- table_name p ;;
  emit (DbWrite (DELETE_TEMPLATE tn (sql_name id_field)) [task_id]).

Definition asana_task_ids (p : Project) : M (gset pyval) :=
  ts <- _tasks p ;;
  ret (list_to_set (map (λ t, dict_get t "gid") ts)).

(** [row[0] for row in rows] *)
Fixpoint first_cells (rows : list row) : result (list pyval) :=
  match rows with
  | [] => Ok []
  | r :: rows' =>
      match r with
      | [] => Raise IndexError
      | c :: _ =>
          match first_cells rows' with
          | Ok cs => Ok (c :: cs)
          | Raise e => Raise e
          end
      end
  end.

Definition db_task_ids (p : Project) : M (gset pyval) :=
  id_field <- _id_field p ;;
  tn <- table_name p ;;
  let sql := SELECT_TEMPLATE (sql_name id_field) tn in
  emit (DbRead sql) ;;;
  cells <- lift_result (first_cells (read (_db_client p) sql)) ;;
  ret (list_to_set cells).

(** The set [ids_to_remove] is walked in its iteration order, here that of
    [elements]. *)
Definition synchronize (p : Project) : M unit :=
  db_ids <- db_task_ids p ;;
  asana_ids <- asana_task_ids p ;;
  let ids_to_remove := db_ids ∖ asana_ids in
  ts <- _tasks p ;;
  for_each ts (insert_or_replace p) ;;;
  for_each (elements ids_to_remove) (delete p).

(** ** [create_table] *)

(** [field.field_definition_sql()], a method of the field objects; they are
    defined in [asana2sql/fields.py]. *)
Variable field_definition_sql : field → string.

(** [CREATE_TABLE_TEMPLATE.format(table_name=..., columns=...)] *)
Definition CREATE_TABLE_TEMPLATE (table_name columns : string) : string :=
  "CREATE TABLE IF NOT EXISTS " +:+ dquote +:+ table_name +:+ dquote +:+
  " (" +:+ columns +:+ ");".

Definition create_table (p : Project) : M unit :=
  emit (Print (PStr "create_table...")) ;;;
  tn <- table_name p ;;
  emit (Print (PStr tn)) ;;;
  tn' <- table_name p ;;
  let sql :=
    CREATE_TABLE_TEMPLATE tn'
      (join "," (map field_definition_sql (_direct_fields p))) in
  emit (Print (PStr "db write sql:")) ;;;
  emit (Print (PStr sql)) ;;;
  emit (DbWrite sql []).

(** ** The command line, [asana2sql.py]: [main] *)

(** The parsed arguments [main] reads itself ([args]); an absent
    [odbc_string] or [command] is [EmptyString]. *)
Record main_args : Type := {
  main_project_id : Z;
  main_table_name : string;
  main_odbc_string : string;
  main_dry : bool;
  main_dump_perf : bool;
  main_command : string
}.

(** What [main] does, in order: the events of the engine (its own prints
    are [Print] events too) and the calls to its other collaborators, which
    are recorded and not looked into, each one taken to return:
    [pyodbc.connect], the [Workspace] constructor,
    [workspace.create_tables()], [db_client.commit()] and the two lines of
    the performance report. *)
Inductive main_event : Type :=
  | Engine (e : event)
  | Connect (odbc_string : string)
  | NewWorkspace
  | WorkspaceCreateTables
  | Commit
  | PerfReport.

(** How [main] can end other than by returning: with an exception of the
    engine, or with the [AttributeError] of [None.commit()]. *)
Inductive main_exn : Type :=
  | EngineError (e : exn)
  | AttributeError.

(** The command dispatch of [main], run on a fresh [Project]. *)
Definition run_command (a : main_args) (p : Project)
    : result unit * list main_event :=
  if String.eqb (main_command a) "create" then
    match (emit (Print (PStr "create...")) ;;; create_table p)
            initial_state with
    | (Ok _, s) => (Ok tt, map Engine (trace s) ++ [WorkspaceCreateTables])
    | (Raise e, s) => (Raise e, map Engine (trace s))
    end
  else if String.eqb (main_command a) "export" then
    match export p initial_state with
    | (r, s) => (r, map Engine (trace s))
    end
  else if String.eqb (main_command a) "synchronize" then
    match synchronize p initial_state with
    | (r, s) => (r, map Engine (trace s))
    end
  else (Ok tt, []).

(** The events before the command: the connection (when an ODBC string is
    given), the workspace, the project. *)
Definition main_setup (a : main_args) : list main_event :=
  (if truthy_str (main_odbc_string a)
   then [Engine (Print (PStr "Connecting to database."));
         Connect (main_odbc_string a)]
   else [])
  ++ [Engine (Print (PStr "workspace..."));
      NewWorkspace;
      Engine (Print (PStr "project..."))].

Definition main_project (a : main_args) (client : asana_client)
    (db : db_client) (fields : list field) : Project :=
  new_Project client db
    {| project_id := main_project_id a;
       table_name_arg := main_table_name a |}
    fields.

(** [main], given the client [build_asana_client] made, the database
    wrapper and the fields [default_fields(workspace)] gave: how it ends
    ([None]: it returns) and what it did. *)
Definition main (a : main_args) (client : asana_client) (db : db_client)
    (fields : list field) : option main_exn * list main_event :=
  let perf := if main_dump_perf a then [PerfReport] else [] in
  match run_command a (main_project a client db fields) with
  | (Raise e, evs) => (Some (EngineError e), main_setup a ++ evs)
  | (Ok _, evs) =>
      if main_dry a then (None, main_setup a ++ evs ++ perf)
      else if truthy_str (main_odbc_string a)
      then (None, main_setup a ++ evs ++ [Commit] ++ perf)
      else (Some AttributeError, main_setup a ++ evs)
  end.

(** A synchronize run from the command line: project 7 into the table
    [tasks], committed. *)
Definition synchronize_args : main_args :=
  {| main_project_id := 7; main_table_name := "tasks";
     main_odbc_string := "DSN=asana"; main_dry := false;
     main_dump_perf := true; main_command := "synchronize" |}.


(** ** Vocabulary of the properties *)

(** [respects R m]: every run of [m] takes a state to an [R]-related one. *)
Definition respects (R : relation state) {A} (m : M A) : Prop :=
  ∀ s, R s (m s).2.

(** [evolves P s s']: the trace has grown by events that all satisfy [P],
    and cached project metadata is still cached. *)
Definition evolves (P : event → Prop) : relation state :=
  λ s s', (∃ evs, trace s' = trace s ++ evs ∧ Forall P evs) ∧
          (∀ d, project_data_cache s = Some d →
                project_data_cache s' = Some d).

(** The events that are not statements sent to the database. *)
Definition not_write (e : event) : Prop :=
  match e with
  | DbWrite _ _ => False
  | _ => True
  end.

(** The text of one assignment of the update-set. *)
Definition assignment (column value : string) : string :=
  " " +:+ column +:+ " = " +:+ "'" +:+ value +:+ "'".

(** What [set_command_loop] computes, said without the loop: one assignment
    per field whose value is a truthy string, in field order ... *)
Definition update_set (fields : list field) (t : task)
    : list (string * string) :=
  omap (λ f, match get_data_from_task f t with
             | PStr v => if truthy (PStr v) then Some (sql_name f, v)
                         else None
             | _ => None
             end) fields.

(** ... joined by [", "]. *)
Definition render_update_set (us : list (string * string)) : string :=
  join ", " (map (λ cv, assignment cv.1 cv.2) us).

(** The values [set_command_loop] can handle: a [str], or anything falsy. *)
Definition str_or_falsy (v : pyval) : bool :=
  match v with
  | PStr _ => true
  | _ => negb (truthy v)
  end.

Definition values_ok (fields : list field) (t : task) : bool :=
  forallb (λ f, str_or_falsy (get_data_from_task f t)) fields.

(** The accumulator after appending the assignments [us] to [acc]. *)
Fixpoint extend_set_command (acc : string) (us : list (string * string))
    : string :=
  match us with
  | [] => acc
  | cv :: us' =>
      extend_set_command
        ((if negb (String.eqb acc EmptyString) then acc +:+ ", " else acc)
           +:+ assignment cv.1 cv.2) us'
  end.

(** The statements of a trace, in the order they were issued. *)
Definition db_writes (tr : list event) : list (string * list pyval) :=
  omap (λ e, match e with
             | DbWrite sql params => Some (sql, params)
             | _ => None
             end) tr.

(** A statement built from the upsert template, resp. the delete template. *)
Definition is_upsert (sql : string) : Prop :=
  ∃ tn columns values set_command,
    sql = INSERT_OR_REPLACE_TEMPLATE tn columns values set_command.

Definition is_delete (sql : string) : Prop :=
  ∃ tn id_column, sql = DELETE_TEMPLATE tn id_column.

(** Events of a phase that sends nothing but upserts, resp. deletes. *)
Definition no_delete (e : event) : Prop :=
  match e with
  | DbWrite sql _ => is_upsert sql
  | _ => True
  end.

Definition no_upsert (e : event) : Prop :=
  match e with
  | DbWrite sql _ => is_delete sql
  | _ => True
  end.

(** The table name [table_name] returns in state [s], when it returns. *)
Definition resolved_table_name (p : Project) (s : state) : option string :=
  if truthy_str (_table_name p) then Some (sql_safe_name (_table_name p))
  else
    match project_data_cache s with
    | Some d => sql_safe_name <$> d !! "name"
    | None =>
        match find_by_id (_asana_client p) (_project_id p) with
        | ApiOk d => sql_safe_name <$> d !! "name"
        | _ => None
        end
    end.

(** The statement [insert_or_replace] sends for task [t], and the one
    [delete] sends for identifier [id]. *)
Definition upsert_statement (p : Project) (tn : string) (t : task)
    : string * list pyval :=
  (INSERT_OR_REPLACE_TEMPLATE tn
     (join "," (map sql_name (_direct_fields p)))
     (join "," (map (λ _, "?") (_direct_fields p)))
     (render_update_set (update_set (_direct_fields p) t)),
   map (λ f, get_data_from_task f t) (_direct_fields p)).

Definition delete_statement (tn : string) (id_field : field) (id : pyval)
    : string * list pyval :=
  (DELETE_TEMPLATE tn (sql_name id_field), [id]).

Definition has_name (st : task) : bool := bool_decide (is_Some (st !! "name")).

(** The sub-tasks the client answers for top-level task [t]. *)
Definition sub_tasks_of (p : Project) (t : task) : list task :=
  match t !! "gid" with
  | Some g =>
      match subtasks (_asana_client p) g (fields_arg p) with
      | ApiOk subs => subs
      | _ => []
      end
  | None => []
  end.

(** The loop body of [_tasks] goes through for top-level task [t]: it has a
    ["gid"], its sub-tasks are answered, and each has a ["name"]. *)
Definition expandable (p : Project) (t : task) : bool :=
  match t !! "gid" with
  | Some g =>
      match subtasks (_asana_client p) g (fields_arg p) with
      | ApiOk subs => forallb has_name subs
      | _ => false
      end
  | None => false
  end.

Definition subtask_events (p : Project) (t : task) : list event :=
  ApiSubtasks (dict_get t "gid") (fields_arg p)
    :: map (λ st, Print (dict_get st "name")) (sub_tasks_of p t).

Definition with_tasks (s : state) (ts : list task) (evs : list event)
    : state :=
  {| project_data_cache := project_data_cache s;
     task_cache := Some ts;
     trace := trace s ++ evs |}.

(** The flat task list of a first, successful [_tasks], and its events. *)
Definition flat_tasks (p : Project) (tops : list task) : list task :=
  tops ++ flat_map (sub_tasks_of p) tops.

Definition fetch_events (p : Project) (tops : list task) : list event :=
  [ApiFindByProject (_project_id p) (fields_arg p);
   ApiFindByProject (_project_id p) (fields_arg p)]
  ++ flat_map (subtask_events p) tops.

(** The task list [_tasks] returns in state [s], when it returns. *)
Definition fetched_tasks (p : Project) (s : state) : option (list task) :=
  match task_cache s with
  | Some ts => Some ts
  | None =>
      match find_by_project (_asana_client p) (_project_id p)
              (fields_arg p) with
      | ApiOk tops =>
          if forallb (expandable p) tops then Some (flat_tasks p tops)
          else None
      | _ => None
      end
  end.

(** The identifiers of the fetched tasks, as [asana_task_ids] collects
    them. *)
Definition remote_ids (ts : list task) : gset pyval :=
  list_to_set (map (λ t, dict_get t "gid") ts).


(** ** A reference reading of the statements

    The database is a collaborator outside the repository.  To say what a
    sequence of the engine's statements means for stored rows, its two
    statements are given their usual SQL reading over one table: a list of
    rows, each a map from column to cell.  An upsert whose ["gid"] is stored
    already (and is not NULL) assigns the update-set to the rows that hold
    it, and inserts its row otherwise; a delete removes the rows whose
    identifier column equals its (non-NULL) parameter.  The assignments of
    an [Upsert] are those its text was rendered from; they are what the
    text says when the values hold no single quote (see
    [read_set_clause] below). *)
Inductive statement : Type :=
  | Upsert (columns : list string) (params : list pyval)
           (assignments : list (string * string))
  | Delete (id_column : string) (id : pyval).

(** The text and parameters of a statement, for table [tn]. *)
Definition statement_sql (tn : string) (st : statement)
    : string * list pyval :=
  match st with
  | Upsert columns params assignments =>
      (INSERT_OR_REPLACE_TEMPLATE tn (join "," columns)
         (join "," (map (λ _, "?") columns))
         (render_update_set assignments),
       params)
  | Delete id_column id => (DELETE_TEMPLATE tn id_column, [id])
  end.

(** The upsert [insert_or_replace] sends for task [t]. *)
Definition upsert_of (p : Project) (t : task) : statement :=
  Upsert (map sql_name (_direct_fields p))
         (map (λ f, get_data_from_task f t) (_direct_fields p))
         (update_set (_direct_fields p) t).

Definition inserted_row (columns : list string) (params : list pyval)
    : gmap string pyval :=
  list_to_map (zip columns params).

(** The row the upsert of task [t] would insert. *)
Definition row_of_task (p : Project) (t : task) : gmap string pyval :=
  inserted_row (map sql_name (_direct_fields p))
               (map (λ f, get_data_from_task f t) (_direct_fields p)).

Definition conflicts (new r : gmap string pyval) : bool :=
  match new !! "gid" with
  | None | Some PNone => false
  | Some g => bool_decide (r !! "gid" = Some g)
  end.

Definition apply_assignments (assignments : list (string * string))
    (r : gmap string pyval) : gmap string pyval :=
  foldl (λ r cv, <[cv.1 := PStr cv.2]> r) r assignments.

Definition exec (tbl : list (gmap string pyval)) (st : statement)
    : list (gmap string pyval) :=
  match st with
  | Upsert columns params assignments =>
      let new := inserted_row columns params in
      if existsb (conflicts new) tbl
      then map (λ r, if conflicts new r
                     then apply_assignments assignments r else r) tbl
      else tbl ++ [new]
  | Delete id_column id =>
      match id with
      | PNone => tbl
      | _ => List.filter
               (λ r, negb (bool_decide (r !! id_column = Some id))) tbl
      end
  end.

Definition exec_all (tbl : list (gmap string pyval)) (sts : list statement)
    : list (gmap string pyval) :=
  foldl exec tbl sts.

(** ** Reading the text of an update-set

    The update-set reaches the database as text, after [DO UPDATE SET] and
    before the closing semicolon of the statement.  To say which columns
    that text assigns, it is read by the lexical rules of SQL: a list of
    [column = value] separated by commas, where a column is a plain
    identifier and a value is [NULL] or a string literal between single
    quotes, in which a doubled single quote stands for one; blanks are
    skipped, two dashes start a comment that runs to the end of the line,
    and a semicolon ends the statement.  A backslash is an ordinary
    character, as in the dialects that have [ON CONFLICT].  A text these
    rules do not cover is not read ([None]). *)
Inductive sql_value : Type :=
  | SqlString (s : string)
  | SqlNull.

Definition ident_char (c : Ascii.ascii) : bool :=
  (("a" <=? c) && (c <=? "z") || ("A" <=? c) && (c <=? "Z")
   || ("0" <=? c) && (c <=? "9") || (c =? "_"))%char.




Definition is_null (word : string) : bool :=
  String.eqb word "NULL" || String.eqb word "null".

(** Where the reader is: before a column name, in one, after one, after
    the equals sign, in a string literal, after a single quote met in a
    string literal, in an unquoted word, after a value, after one dash, in
    a comment. *)
Inductive lex_mode : Type :=
  | BeforeName
  | InName (name : string)
  | AfterName (name : string)
  | BeforeValue (name : string)
  | InString (name value : string)
  | AfterQuote (name value : string)
  | InWord (name word : string)
  | AfterValue
  | AfterDash
  | InComment.

Fixpoint read_set_clause_from (m : lex_mode)
    (acc : list (string * sql_value)) (text : string)
    : option (list (string * sql_value)) :=
  match text with
  | EmptyString =>
      match m with
      | AfterValue | InComment => Some acc
      | AfterQuote name value => Some (acc ++ [(name, SqlString value)])
      | InWord name word =>
          if is_null word then Some (acc ++ [(name, SqlNull)]) else None
      | _ => None
      end
  | String c rest =>
      let after_value acc' :=
        if (c =? " ")%char then read_set_clause_from AfterValue acc' rest
        else if (c =? ",")%char then read_set_clause_from BeforeName acc' rest
        else if (c =? ";")%char then Some acc'
        else if (c =? "-")%char then read_set_clause_from AfterDash acc' rest
        else None in
      match m with
      | BeforeName =>
          if (c =? " ")%char then read_set_clause_from BeforeName acc rest
          else if ident_char c
          then read_set_clause_from (InName (String c EmptyString)) acc rest
          else None
      | InName name =>
          if ident_char c
          then read_set_clause_from
                 (InName (name +:+ String c EmptyString)) acc rest
          else if (c =? " ")%char
          then read_set_clause_from (AfterName name) acc rest
          else if (c =? "=")%char
          then read_set_clause_from (BeforeValue name) acc rest
          else None
      | AfterName name =>
          if (c =? " ")%char
          then read_set_clause_from (AfterName name) acc rest
          else if (c =? "=")%char
          then read_set_clause_from (BeforeValue name) acc rest
          else None
      | BeforeValue name =>
          if (c =? " ")%char
          then read_set_clause_from (BeforeValue name) acc rest
          else if (c =? "'")%char
          then read_set_clause_from (InString name EmptyString) acc rest
          else if ident_char c
          then read_set_clause_from
                 (InWord name (String c EmptyString)) acc rest
          else None
      | InString name value =>
          if (c =? "'")%char
          then read_set_clause_from (AfterQuote name value) acc rest
          else read_set_clause_from
                 (InString name (value +:+ String c EmptyString)) acc rest
      | AfterQuote name value =>
          if (c =? "'")%char
          then read_set_clause_from
                 (InString name (value +:+ "'")) acc rest
          else after_value (acc ++ [(name, SqlString value)])
      | InWord name word =>
          if ident_char c
          then read_set_clause_from
                 (InWord name (word +:+ String c EmptyString)) acc rest
          else if is_null word
          then after_value (acc ++ [(name, SqlNull)])
          else None
      | AfterValue => after_value acc
      | AfterDash =>
          if (c =? "-")%char then read_set_clause_from InComment acc rest
          else None
      | InComment =>
          if (c =? "010")%char
          then read_set_clause_from AfterValue acc rest
          else read_set_clause_from InComment acc rest
      end
  end.

(** The assignments of the update-set an upsert statement carries, whose
    text ends with [set_command] and the semicolon of the template. *)
Definition read_set_clause (set_command : string)
    : option (list (string * sql_value)) :=
  read_set_clause_from BeforeName [] (set_command +:+ ";").



(** ** Vocabulary of the further properties *)

(** The request [table_name] makes in state [s]: one for the metadata when
    no table name is configured and none is cached, none otherwise. *)
Definition name_fetch_events (p : Project) (s : state) : list event :=
  if truthy_str (_table_name p) then []
  else match project_data_cache s with
       | Some _ => []
       | None => [ApiFindById (_project_id p)]
       end.

(** The exception [table_name] raises in state [s] when it does not
    return: the metadata cannot be had, or has no ["name"]. *)
Definition table_name_failure (p : Project) (s : state) : exn :=
  match project_data_cache s with
  | Some _ => KeyError "name"
  | None =>
      match find_by_id (_asana_client p) (_project_id p) with
      | ApiOk _ => KeyError "name"
      | ApiNotFound => NoSuchProjectException (_project_id p)
      | ApiError msg => AsanaError msg
      end
  end.

(** [cache_grows s s']: a task cache that is set stays set and is only
    appended to. *)
Definition cache_grows : relation state :=
  λ s s', ∀ cur, task_cache s = Some cur →
                 ∃ more, task_cache s' = Some (cur ++ more).

(** The events of [main] up to the end of its command: neither the commit
    nor the performance report. *)
Definition before_commit (e : main_event) : Prop :=
  match e with
  | Commit | PerfReport => False
  | _ => True
  end.

(** Events that are no delete statement. *)
Definition never_delete (e : event) : Prop :=
  match e with
  | DbWrite sql _ => ¬ is_delete sql
  | _ => True
  end.


(** * Properties *)

(** ** Running computations *)

Lemma bind_Ok {A B} (m : M A) (k : A → M B) s a s' :
  m s = (Ok a, s') → bind m k s = k a s'.
Proof. unfold bind. by intros ->. Qed.

Lemma for_each_app {A} (xs ys : list A) (body : A → M unit) s s' :
  for_each xs body s = (Ok tt, s') →
  for_each (xs ++ ys) body s = for_each ys body s'.
Proof.
  revert s. induction xs as [|x xs IH]; intros s; simpl.
  - unfold ret. by intros [= ->].
  - unfold bind at 1. destruct (body x s) as [[[]|e] s1] eqn:Hx; [|done].
    intros Hrest. rewrite (bind_Ok _ _ _ _ _ Hx). by apply IH.
Qed.

Section Respects.
Context (R : relation state) `{!Reflexive R} `{!Transitive R}.

Lemma respects_ret {A} (a : A) : respects R (ret a).
Proof. intros s. simpl. reflexivity. Qed.

Lemma respects_raise {A} e : respects R (raise (A:=A) e).
Proof. intros s. simpl. reflexivity. Qed.

Lemma respects_lift_result {A} (r : result A) : respects R (lift_result r).
Proof. intros s. simpl. reflexivity. Qed.

Lemma respects_get_state : respects R get_state.
Proof. intros s. simpl. reflexivity. Qed.

Lemma respects_read_task_cache : respects R read_task_cache.
Proof. intros s. simpl. reflexivity. Qed.

Lemma respects_bind {A B} (m : M A) (k : A → M B) :
  respects R m → (∀ a, respects R (k a)) → respects R (bind m k).
Proof.
  intros Hm Hk s. unfold bind. specialize (Hm s).
  destruct (m s) as [[a|e] s1]; simpl in *; [|done].
  etrans; [exact Hm|]. apply Hk.
Qed.

Lemma respects_for_each {A} (xs : list A) (body : A → M unit) :
  (∀ x, respects R (body x)) → respects R (for_each xs body).
Proof.
  intros Hb. induction xs as [|x xs IH]; simpl.
  - apply respects_ret.
  - apply respects_bind; [apply Hb|]. intros _. exact IH.
Qed.

Lemma respects_api_call {A} e (r : api_result A) :
  respects R (emit e) → respects R (api_call e r).
Proof.
  intros He. unfold api_call. apply respects_bind; [done|]. intros _.
  destruct r; [apply respects_ret|apply respects_raise..].
Qed.

Lemma respects_subscript t key : respects R (subscript t key).
Proof.
  unfold subscript. destruct (t !! key);
    [apply respects_ret|apply respects_raise].
Qed.
End Respects.

(** ** How a run can change the state *)

#[global] Instance evolves_refl P : Reflexive (evolves P).
Proof.
  intros s. split; [|done]. exists []. by rewrite app_nil_r.
Qed.

#[global] Instance evolves_trans P : Transitive (evolves P).
Proof.
  intros s1 s2 s3 [(e1 & H1 & F1) C1] [(e2 & H2 & F2) C2]. split.
  - exists (e1 ++ e2). rewrite H2, H1, app_assoc. split; [done|].
    by apply Forall_app.
  - intros d Hd. by apply C2, C1.
Qed.

Lemma respects_emit (P : event → Prop) e :
  P e → respects (evolves P) (emit e).
Proof.
  intros HP s. split; [|done]. exists [e]. split; [done|].
  by apply Forall_singleton.
Qed.

Lemma respects_set_task_cache P ts : respects (evolves P) (set_task_cache ts).
Proof. intros s. split; [|done]. exists []. simpl. by rewrite app_nil_r. Qed.

Lemma respects_task_cache_append P t :
  respects (evolves P) (task_cache_append t).
Proof. intros s. split; [|done]. exists []. simpl. by rewrite app_nil_r. Qed.

Lemma respects_project_data P p :
  P (ApiFindById (_project_id p)) → respects (evolves P) (_project_data p).
Proof.
  intros HP s. unfold _project_data, bind, get_state.
  destruct (project_data_cache s) as [d|] eqn:Hc; [reflexivity|].
  unfold except_NotFoundError, api_call, bind, emit, set_project_data_cache,
    ret, raise.
  destruct (find_by_id _ _); simpl;
    (split; [exists [ApiFindById (_project_id p)]; split;
               [done|by apply Forall_singleton]
            |simpl; congruence]).
Qed.

Lemma respects_tasks P p :
  (∀ e, not_write e → P e) → respects (evolves P) (_tasks p).
Proof.
  intros HP. unfold _tasks.
  apply respects_bind; try apply _; [apply respects_get_state; apply _|].
  intros s0. apply respects_bind; try apply _;
    [|intros; apply respects_read_task_cache; apply _].
  destruct (task_cache s0); [apply respects_ret; apply _|].
  apply respects_bind; try apply _.
  { apply respects_api_call; try apply _. by apply respects_emit, HP. }
  intros ts. apply respects_bind; try apply _;
    [apply respects_set_task_cache|]. intros _.
  apply respects_bind; try apply _.
  { apply respects_api_call; try apply _. by apply respects_emit, HP. }
  intros tops. apply respects_for_each; try apply _. intros t.
  apply respects_bind; try apply _; [apply respects_subscript; apply _|].
  intros g. apply respects_bind; try apply _.
  { apply respects_api_call; try apply _. by apply respects_emit, HP. }
  intros subs. apply respects_for_each; try apply _. intros st.
  apply respects_bind; try apply _; [apply respects_subscript; apply _|].
  intros n. apply respects_bind; try apply _; [by apply respects_emit, HP|].
  intros _. apply respects_task_cache_append.
Qed.

(** ** Strings *)

Lemma append_nil_r (s : string) : s +:+ EmptyString = s.
Proof.
  induction s as [|c s IH]; [done|].
  change (String c (s +:+ EmptyString) = String c s). by rewrite IH.
Qed.

Lemma append_assoc (a b c : string) : (a +:+ b) +:+ c = a +:+ b +:+ c.
Proof.
  induction a as [|x a IH]; [done|].
  change (String x ((a +:+ b) +:+ c) = String x (a +:+ b +:+ c)).
  by rewrite IH.
Qed.

Lemma append_eq_nil (a b : string) :
  a +:+ b = EmptyString → a = EmptyString ∧ b = EmptyString.
Proof. destruct a; [done|]. intros H. discriminate H. Qed.

(** ** The update-set of the upsert statement *)

Lemma concat_cons_sep (sep x : string) (xs : list string) :
  String.concat sep (x :: xs) =
  x +:+ String.concat EmptyString (map (λ y, sep +:+ y) xs).
Proof.
  revert x. induction xs as [|y ys IH]; intros x.
  - simpl. by rewrite append_nil_r.
  - change (String.concat sep (x :: y :: ys))
      with (x +:+ sep +:+ String.concat sep (y :: ys)).
    rewrite IH. f_equal. destruct ys as [|z zs].
    + simpl. by rewrite !append_nil_r.
    + change (String.concat EmptyString
                (map (λ y0, sep +:+ y0) (y :: z :: zs)))
        with ((sep +:+ y) +:+ EmptyString +:+
              String.concat EmptyString (map (λ y0, sep +:+ y0) (z :: zs))).
      rewrite append_assoc. reflexivity.
Qed.

Lemma extend_set_command_nonempty acc us :
  acc ≠ EmptyString →
  extend_set_command acc us =
  acc +:+ String.concat EmptyString
            (map (λ y, ", " +:+ y) (map (λ cv, assignment cv.1 cv.2) us)).
Proof.
  revert acc. induction us as [|cv us IH]; intros acc Hacc.
  - simpl. by rewrite append_nil_r.
  - cbn [extend_set_command]. apply String.eqb_neq in Hacc as Hb.
    rewrite Hb. cbn [negb]. rewrite IH.
    + rewrite !append_assoc. f_equal.
      cbn [map]. generalize (assignment cv.1 cv.2). intros a.
      generalize (map (λ y, ", " +:+ y)
                    (map (λ cv0, assignment cv0.1 cv0.2) us)).
      intros l. destruct l as [|b l]; simpl; [by rewrite append_nil_r|done].
    + intros H. apply append_eq_nil in H as [_ H]. discriminate H.
Qed.

Lemma extend_set_command_nil us :
  extend_set_command EmptyString us = render_update_set us.
Proof.
  destruct us as [|cv us]; [done|]. unfold render_update_set, join.
  cbn [map]. rewrite concat_cons_sep. cbn [extend_set_command].
  apply extend_set_command_nonempty. done.
Qed.

Lemma update_set_cons (f : field) (fields : list field) (t : task) :
  update_set (f :: fields) t =
  match get_data_from_task f t with
  | PStr v => if truthy (PStr v) then (sql_name f, v) :: update_set fields t
              else update_set fields t
  | _ => update_set fields t
  end.
Proof.
  unfold update_set. cbn [omap list_omap].
  destruct (get_data_from_task f t) as [|n|v]; try done.
  by destruct (truthy (PStr v)).
Qed.

Lemma set_command_loop_acc (fields : list field) (t : task) (acc : string) :
  set_command_loop fields t acc =
  if values_ok fields t
  then Ok (extend_set_command acc (update_set fields t))
  else Raise TypeError.
Proof.
  revert acc. induction fields as [|f fields IH]; intros acc; [done|].
  rewrite update_set_cons. unfold values_ok.
  cbn [set_command_loop forallb]. fold (values_ok fields t).
  destruct (get_data_from_task f t) as [|n|v] eqn:Hv.
  - cbn [truthy str_or_falsy negb andb]. rewrite andb_false_r. apply IH.
  - cbn [truthy str_or_falsy]. destruct (n =? 0); cbn [negb andb].
    + rewrite andb_false_r. apply IH.
    + done.
  - cbn [str_or_falsy andb]. destruct (truthy (PStr v)) eqn:Htr.
    + rewrite andb_true_r. cbn [str_add]. rewrite IH.
      destruct (values_ok fields t); [|done].
      cbn [extend_set_command fst snd]. unfold assignment.
      by rewrite !append_assoc.
    + rewrite andb_false_r. apply IH.
Qed.

Lemma set_command_loop_spec (fields : list field) (t : task) :
  set_command_loop fields t EmptyString =
  if values_ok fields t
  then Ok (render_update_set (update_set fields t))
  else Raise TypeError.
Proof. by rewrite set_command_loop_acc, extend_set_command_nil. Qed.


(** ** Statements sent to the database *)

Lemma db_writes_app tr1 tr2 :
  db_writes (tr1 ++ tr2) = db_writes tr1 ++ db_writes tr2.
Proof. apply omap_app. Qed.

Lemma db_writes_not_write evs : Forall not_write evs → db_writes evs = [].
Proof.
  induction 1 as [|e evs He _ IH]; [done|].
  destruct e; try done.
Qed.

Lemma upsert_not_delete sql : is_upsert sql → ¬ is_delete sql.
Proof. intros (?&?&?&?&->) (?&?&H). discriminate H. Qed.

Lemma not_write_no_delete e : not_write e → no_delete e.
Proof. by destruct e. Qed.

Lemma not_write_no_upsert e : not_write e → no_upsert e.
Proof. by destruct e. Qed.

Lemma respects_table_name P p :
  P (ApiFindById (_project_id p)) → respects (evolves P) (table_name p).
Proof.
  intros HP. unfold table_name.
  apply respects_bind; try apply _; [|intros; apply respects_ret; apply _].
  destruct (truthy_str _); [apply respects_ret; apply _|].
  unfold project_name. apply respects_bind; try apply _.
  - by apply respects_project_data.
  - intros d. destruct (d !! "name");
      [apply respects_ret|apply respects_raise]; apply _.
Qed.

Lemma respects_insert_or_replace P p t :
  (∀ e, not_write e → P e) →
  (∀ sql params, is_upsert sql → P (DbWrite sql params)) →
  respects (evolves P) (insert_or_replace p t).
Proof.
  intros HP Hup. unfold insert_or_replace.
  apply respects_bind; try apply _; [apply respects_lift_result; apply _|].
  intros sc. apply respects_bind; try apply _;
    [by apply respects_table_name, HP|].
  intros tn. apply respects_bind; try apply _.
  - apply respects_emit, Hup. by eexists _, _, _, _.
  - intros _. apply respects_for_each; try apply _. intros i.
    by apply respects_emit, HP.
Qed.

Lemma respects_delete P p id :
  (∀ e, not_write e → P e) →
  (∀ sql, is_delete sql → P (DbWrite sql [id])) →
  respects (evolves P) (delete p id).
Proof.
  intros HP Hdel. unfold delete, _id_field.
  apply respects_bind; try apply _.
  { destruct (_direct_fields p);
      [apply respects_raise|apply respects_ret]; apply _. }
  intros f. apply respects_bind; try apply _;
    [by apply respects_table_name, HP|].
  intros tn. apply respects_emit, Hdel. by eexists _, _.
Qed.

Lemma respects_db_task_ids P p :
  (∀ e, not_write e → P e) → respects (evolves P) (db_task_ids p).
Proof.
  intros HP. unfold db_task_ids, _id_field.
  apply respects_bind; try apply _.
  { destruct (_direct_fields p);
      [apply respects_raise|apply respects_ret]; apply _. }
  intros f. apply respects_bind; try apply _;
    [by apply respects_table_name, HP|].
  intros tn. apply respects_bind; try apply _;
    [by apply respects_emit, HP|].
  intros _. apply respects_bind; try apply _;
    [apply respects_lift_result; apply _|].
  intros cells. apply respects_ret; apply _.
Qed.

Lemma respects_asana_task_ids P p :
  (∀ e, not_write e → P e) → respects (evolves P) (asana_task_ids p).
Proof.
  intros HP. unfold asana_task_ids.
  apply respects_bind; try apply _; [by apply respects_tasks|].
  intros ts. apply respects_ret; apply _.
Qed.

Lemma respects_export p : respects (evolves no_delete) (export p).
Proof.
  unfold export.
  apply respects_bind; try apply _.
  { apply respects_tasks. apply not_write_no_delete. }
  intros ts. apply respects_for_each; try apply _. intros t.
  apply respects_insert_or_replace; [apply not_write_no_delete|done].
Qed.

(** ** Runs that complete *)

Lemma evolves_db_writes s s' :
  evolves not_write s s' → db_writes (trace s') = db_writes (trace s).
Proof.
  intros [(evs & -> & HF) _].
  by rewrite db_writes_app, (db_writes_not_write evs), app_nil_r.
Qed.

Lemma table_name_Ok p s tn :
  resolved_table_name p s = Some tn →
  ∃ s', table_name p s = (Ok tn, s') ∧
        evolves not_write s s' ∧
        task_cache s' = task_cache s ∧
        resolved_table_name p s' = Some tn.
Proof.
  unfold resolved_table_name, table_name.
  destruct (truthy_str (_table_name p)) eqn:Hcfg.
  { intros [= <-]. by exists s. }
  unfold project_name, _project_data, bind, get_state.
  destruct (project_data_cache s) as [d|] eqn:Hc.
  { intros Hn. exists s. unfold ret. rewrite Hc.
    destruct (d !! "name") as [n|] eqn:Hname; [|done].
    by injection Hn as <-. }
  unfold except_NotFoundError, api_call, bind, emit, ret, raise,
    set_project_data_cache.
  destruct (find_by_id _ _) as [d| |]; [|done..].
  destruct (d !! "name") as [n|] eqn:Hname; [|done].
  intros [= <-]. eexists. split; [done|]. simpl. rewrite Hname.
  repeat split; try done.
  - exists [ApiFindById (_project_id p)]. split; [done|].
    by apply Forall_singleton.
  - simpl. congruence.
Qed.

Lemma for_each_emit_not_write {A} (xs : list A) (f : A → event) s :
  (∀ x, not_write (f x)) →
  ∃ s', for_each xs (λ x, emit (f x)) s = (Ok tt, s') ∧
        evolves not_write s s' ∧
        task_cache s' = task_cache s ∧
        project_data_cache s' = project_data_cache s.
Proof.
  intros Hf. revert s. induction xs as [|x xs IH]; intros s.
  - by exists s.
  - destruct (IH (emit (f x) s).2) as (s' & Hrun & Hev & Htc & Hpc).
    exists s'. cbn [for_each]. erewrite bind_Ok by reflexivity.
    split; [exact Hrun|]. split; [|by split].
    etrans; [|exact Hev]. by apply (respects_emit not_write).
Qed.

Lemma resolved_table_name_cache p s s' :
  project_data_cache s' = project_data_cache s →
  resolved_table_name p s' = resolved_table_name p s.
Proof. unfold resolved_table_name. by intros ->. Qed.

Lemma insert_or_replace_Ok p t s tn :
  resolved_table_name p s = Some tn →
  values_ok (_direct_fields p) t = true →
  ∃ s', insert_or_replace p t s = (Ok tt, s') ∧
        db_writes (trace s') =
          db_writes (trace s) ++ [upsert_statement p tn t] ∧
        task_cache s' = task_cache s ∧
        resolved_table_name p s' = Some tn.
Proof.
  intros Hres Hok. unfold insert_or_replace.
  rewrite set_command_loop_spec, Hok.
  erewrite bind_Ok by reflexivity.
  destruct (table_name_Ok p s tn Hres) as (s1 & Hrun1 & Hev1 & Htc1 & Hres1).
  erewrite bind_Ok by exact Hrun1.
  erewrite bind_Ok by reflexivity.
  edestruct (for_each_emit_not_write
               (imap (λ i _, i) (_indirect_fields p))
               (λ i, IndirectField i t)) as (s2 & Hrun2 & Hev2 & Htc2 & Hpc2);
    [done|].
  exists s2. split; [exact Hrun2|].
  rewrite (evolves_db_writes _ _ Hev2). cbn [emit snd trace].
  rewrite db_writes_app, (evolves_db_writes _ _ Hev1).
  split; [done|]. split; [by rewrite Htc2|].
  by rewrite (resolved_table_name_cache _ _ _ Hpc2).
Qed.

Lemma insert_loop_Ok p ts s tn :
  ts = [] ∨ resolved_table_name p s = Some tn →
  forallb (values_ok (_direct_fields p)) ts = true →
  ∃ s', for_each ts (insert_or_replace p) s = (Ok tt, s') ∧
        db_writes (trace s') =
          db_writes (trace s) ++ map (upsert_statement p tn) ts ∧
        task_cache s' = task_cache s ∧
        (resolved_table_name p s = Some tn →
         resolved_table_name p s' = Some tn).
Proof.
  revert s. induction ts as [|t ts IH]; intros s Hres Hok.
  - exists s. by rewrite app_nil_r.
  - destruct Hres as [|Hres]; [done|].
    apply andb_true_iff in Hok as [Hok1 Hok2].
    destruct (insert_or_replace_Ok p t s tn Hres Hok1)
      as (s1 & Hrun1 & Hw1 & Htc1 & Hres1).
    destruct (IH s1 (or_intror Hres1) Hok2) as (s2 & Hrun2 & Hw2 & Htc2 & Hres2).
    exists s2. cbn [for_each]. erewrite bind_Ok by exact Hrun1.
    split; [exact Hrun2|]. rewrite Hw2, Hw1, <- app_assoc.
    split; [done|]. split; [congruence|auto].
Qed.

Lemma delete_Ok p id s tn id_field rest :
  _direct_fields p = id_field :: rest →
  resolved_table_name p s = Some tn →
  ∃ s', delete p id s = (Ok tt, s') ∧
        db_writes (trace s') =
          db_writes (trace s) ++ [delete_statement tn id_field id] ∧
        task_cache s' = task_cache s ∧
        resolved_table_name p s' = Some tn.
Proof.
  intros Hf Hres. unfold delete, _id_field. rewrite Hf.
  erewrite bind_Ok by reflexivity.
  destruct (table_name_Ok p s tn Hres) as (s1 & Hrun1 & Hev1 & Htc1 & Hres1).
  erewrite bind_Ok by exact Hrun1.
  eexists. split; [reflexivity|]. cbn [emit snd trace].
  rewrite db_writes_app, (evolves_db_writes _ _ Hev1). done.
Qed.

Lemma delete_loop_Ok p ids s tn id_field rest :
  _direct_fields p = id_field :: rest →
  resolved_table_name p s = Some tn →
  ∃ s', for_each ids (delete p) s = (Ok tt, s') ∧
        db_writes (trace s') =
          db_writes (trace s) ++ map (delete_statement tn id_field) ids ∧
        task_cache s' = task_cache s.
Proof.
  intros Hf. revert s. induction ids as [|id ids IH]; intros s Hres.
  - exists s. by rewrite app_nil_r.
  - destruct (delete_Ok p id s tn _ _ Hf Hres)
      as (s1 & Hrun1 & Hw1 & Htc1 & Hres1).
    destruct (IH s1 Hres1) as (s2 & Hrun2 & Hw2 & Htc2).
    exists s2. cbn [for_each]. erewrite bind_Ok by exact Hrun1.
    split; [exact Hrun2|]. rewrite Hw2, Hw1, <- app_assoc.
    split; [done|congruence].
Qed.

Lemma db_task_ids_Ok p s tn id_field rest cells :
  _direct_fields p = id_field :: rest →
  resolved_table_name p s = Some tn →
  first_cells (read (_db_client p)
                 (SELECT_TEMPLATE (sql_name id_field) tn)) = Ok cells →
  ∃ s', db_task_ids p s = (Ok (list_to_set cells), s') ∧
        evolves not_write s s' ∧
        task_cache s' = task_cache s ∧
        resolved_table_name p s' = Some tn.
Proof.
  intros Hf Hres Hcells. unfold db_task_ids, _id_field. rewrite Hf.
  erewrite bind_Ok by reflexivity.
  destruct (table_name_Ok p s tn Hres) as (s1 & Hrun1 & Hev1 & Htc1 & Hres1).
  erewrite bind_Ok by exact Hrun1.
  erewrite bind_Ok by reflexivity.
  rewrite Hcells. eexists. split; [reflexivity|].
  split; [|by split].
  etrans; [exact Hev1|]. by apply (respects_emit not_write).
Qed.

(** ** Fetching the tasks *)

Lemma with_tasks_id s ts : task_cache s = Some ts → with_tasks s ts [] = s.
Proof.
  destruct s as [pc tc tr]. unfold with_tasks. simpl. intros ->.
  by rewrite app_nil_r.
Qed.

Lemma with_tasks_with_tasks s ts1 evs1 ts2 evs2 :
  with_tasks (with_tasks s ts1 evs1) ts2 evs2 = with_tasks s ts2 (evs1 ++ evs2).
Proof. unfold with_tasks. simpl. by rewrite app_assoc. Qed.

Lemma sub_task_loop_Ok (subs : list task) s cur :
  task_cache s = Some cur →
  forallb has_name subs = true →
  for_each subs (λ sub_task,
      name <- subscript sub_task "name" ;;
      emit (Print name) ;;;
      task_cache_append sub_task) s =
  (Ok tt, with_tasks s (cur ++ subs)
            (map (λ st, Print (dict_get st "name")) subs)).
Proof.
  revert s cur. induction subs as [|st subs IH]; intros s cur Hc Hn.
  - cbn [for_each map]. by rewrite app_nil_r, with_tasks_id.
  - apply andb_true_iff in Hn as [Hst Hn].
    apply bool_decide_eq_true in Hst as [n Hname].
    cbn [for_each]. unfold subscript at 1, dict_get at 1. rewrite Hname.
    unfold bind at 1 2 3. cbn [ret emit task_cache_append default].
    cbn [task_cache]. rewrite Hc. cbn [default].
    erewrite IH; [|reflexivity|exact Hn].
    unfold with_tasks, dict_get. cbn. rewrite Hname.
    by rewrite <- !app_assoc.
Qed.

Lemma top_task_body_Ok (p : Project) (t : task) s cur :
  task_cache s = Some cur →
  expandable p t = true →
  (task_id <- subscript t "gid" ;;
   sub_tasks <- api_call (ApiSubtasks task_id (fields_arg p))
                  (subtasks (_asana_client p) task_id (fields_arg p)) ;;
   for_each sub_tasks (λ sub_task,
     name <- subscript sub_task "name" ;;
     emit (Print name) ;;;
     task_cache_append sub_task)) s =
  (Ok tt, with_tasks s (cur ++ sub_tasks_of p t) (subtask_events p t)).
Proof.
  intros Hc Ht. unfold expandable in Ht.
  unfold subtask_events, sub_tasks_of, subscript at 1, dict_get at 1.
  destruct (t !! "gid") as [g|] eqn:Hg; [|done]. cbn [default].
  destruct (subtasks (_asana_client p) g (fields_arg p))
    as [subs| |] eqn:Hsubs; [|done..].
  erewrite bind_Ok by reflexivity.
  erewrite bind_Ok; [|by unfold api_call; rewrite Hsubs].
  erewrite sub_task_loop_Ok; [|exact Hc|exact Ht].
  unfold with_tasks. cbn. by rewrite <- !app_assoc.
Qed.

Lemma top_task_loop_Ok (p : Project) (tops : list task) s cur :
  task_cache s = Some cur →
  forallb (expandable p) tops = true →
  for_each tops (λ t,
      task_id <- subscript t "gid" ;;
      sub_tasks <- api_call (ApiSubtasks task_id (fields_arg p))
                     (subtasks (_asana_client p) task_id (fields_arg p)) ;;
      for_each sub_tasks (λ sub_task,
        name <- subscript sub_task "name" ;;
        emit (Print name) ;;;
        task_cache_append sub_task)) s =
  (Ok tt, with_tasks s (cur ++ flat_map (sub_tasks_of p) tops)
            (flat_map (subtask_events p) tops)).
Proof.
  revert s cur. induction tops as [|t tops IH]; intros s cur Hc Hex.
  - cbn [for_each flat_map]. by rewrite app_nil_r, with_tasks_id.
  - apply andb_true_iff in Hex as [Ht Hex].
    cbn [for_each flat_map].
    erewrite bind_Ok; [|by apply top_task_body_Ok].
    erewrite IH; [|reflexivity|exact Hex].
    by rewrite with_tasks_with_tasks, <- app_assoc.
Qed.

Lemma tasks_first_Ok (p : Project) s tops :
  task_cache s = None →
  find_by_project (_asana_client p) (_project_id p) (fields_arg p)
    = ApiOk tops →
  forallb (expandable p) tops = true →
  _tasks p s =
  (Ok (flat_tasks p tops),
   with_tasks s (flat_tasks p tops) (fetch_events p tops)).
Proof.
  intros Hc Hfetch Hex. unfold _tasks.
  erewrite bind_Ok by reflexivity. cbn beta. rewrite Hc, Hfetch.
  erewrite bind_Ok.
  2:{ erewrite bind_Ok by reflexivity.
      erewrite bind_Ok by reflexivity.
      erewrite bind_Ok by reflexivity.
      apply top_task_loop_Ok; [reflexivity|exact Hex]. }
  unfold read_task_cache, with_tasks, flat_tasks, fetch_events. cbn.
  by rewrite <- !app_assoc.
Qed.

Lemma tasks_cached (p : Project) s ts :
  task_cache s = Some ts → _tasks p s = (Ok ts, s).
Proof.
  intros Hc. unfold _tasks, bind, get_state, read_task_cache.
  by rewrite Hc; cbn; rewrite Hc.
Qed.

Lemma fetch_events_not_write (p : Project) tops :
  Forall not_write (fetch_events p tops).
Proof.
  unfold fetch_events. apply Forall_app. split.
  - apply Forall_cons_2; [done|]. by apply Forall_singleton.
  - induction tops as [|t tops IH]; [by apply Forall_nil|].
    cbn [flat_map]. apply Forall_app. split; [|exact IH].
    unfold subtask_events. apply Forall_cons_2; [done|].
    induction (sub_tasks_of p t) as [|st sts IHs]; [by apply Forall_nil|].
    by apply Forall_cons_2.
Qed.

Lemma tasks_Ok (p : Project) s ts :
  fetched_tasks p s = Some ts →
  ∃ s', _tasks p s = (Ok ts, s') ∧
        task_cache s' = Some ts ∧
        project_data_cache s' = project_data_cache s ∧
        evolves not_write s s'.
Proof.
  unfold fetched_tasks. destruct (task_cache s) as [ts'|] eqn:Hc.
  - intros [= ->]. exists s. by rewrite (tasks_cached _ _ _ Hc).
  - destruct (find_by_project _ _ _) as [tops| |] eqn:Hfetch; [|done..].
    destruct (forallb (expandable p) tops) eqn:Hex; [|done].
    intros [= <-]. eexists. split; [by apply tasks_first_Ok|].
    split; [done|]. split; [done|]. split; [|done].
    exists (fetch_events p tops). split; [done|].
    apply fetch_events_not_write.
Qed.

Lemma export_Ok (p : Project) s ts tn :
  fetched_tasks p s = Some ts →
  ts = [] ∨ resolved_table_name p s = Some tn →
  forallb (values_ok (_direct_fields p)) ts = true →
  ∃ s', export p s = (Ok tt, s') ∧
        db_writes (trace s') =
          db_writes (trace s) ++ map (upsert_statement p tn) ts.
Proof.
  intros Hts Hres Hok.
  destruct (tasks_Ok p s ts Hts) as (s1 & Hrun1 & Htc1 & Hpc1 & Hev1).
  destruct (insert_loop_Ok p ts s1 tn) as (s2 & Hrun2 & Hw2 & _); [|done|].
  { destruct Hres as [|Hres]; [by left|right].
    by rewrite (resolved_table_name_cache _ _ _ Hpc1). }
  exists s2. unfold export. erewrite bind_Ok by exact Hrun1.
  split; [exact Hrun2|]. by rewrite Hw2, (evolves_db_writes _ _ Hev1).
Qed.

Lemma synchronize_Ok (p : Project) s tn id_field rest cells ts :
  _direct_fields p = id_field :: rest →
  resolved_table_name p s = Some tn →
  first_cells (read (_db_client p)
                 (SELECT_TEMPLATE (sql_name id_field) tn)) = Ok cells →
  fetched_tasks p s = Some ts →
  forallb (values_ok (_direct_fields p)) ts = true →
  ∃ s', synchronize p s = (Ok tt, s') ∧
        db_writes (trace s') =
          db_writes (trace s)
          ++ map (upsert_statement p tn) ts
          ++ map (delete_statement tn id_field)
               (elements (list_to_set cells ∖ remote_ids ts)).
Proof.
  intros Hf Hres Hcells Hts Hok.
  destruct (db_task_ids_Ok p s tn _ _ _ Hf Hres Hcells)
    as (s1 & Hrun1 & Hev1 & Htc1 & Hres1).
  assert (fetched_tasks p s1 = Some ts) as Hts1.
  { unfold fetched_tasks in *. by rewrite Htc1. }
  destruct (tasks_Ok p s1 ts Hts1) as (s2 & Hrun2 & Htc2 & Hpc2 & Hev2).
  assert (resolved_table_name p s2 = Some tn) as Hres2.
  { by rewrite (resolved_table_name_cache _ _ _ Hpc2). }
  destruct (insert_loop_Ok p ts s2 tn (or_intror Hres2) Hok)
    as (s3 & Hrun3 & Hw3 & Htc3 & Hres3).
  destruct (delete_loop_Ok p (elements (list_to_set cells ∖ remote_ids ts))
              s3 tn _ _ Hf (Hres3 Hres2)) as (s4 & Hrun4 & Hw4 & _).
  exists s4. unfold synchronize.
  erewrite bind_Ok by exact Hrun1.
  unfold asana_task_ids. erewrite bind_Ok.
  2:{ erewrite bind_Ok by exact Hrun2. reflexivity. }
  erewrite bind_Ok by (by apply tasks_cached).
  erewrite bind_Ok by exact Hrun3.
  split; [exact Hrun4|].
  rewrite Hw4, Hw3, (evolves_db_writes _ _ Hev2), (evolves_db_writes _ _ Hev1).
  by rewrite <- app_assoc.
Qed.

(** ** Project metadata and the table name *)

Lemma project_data_first (p : Project) s :
  project_data_cache s = None →
  _project_data p s =
  match find_by_id (_asana_client p) (_project_id p) with
  | ApiOk d =>
      (Ok d, {| project_data_cache := Some d;
                task_cache := task_cache s;
                trace := trace s ++ [ApiFindById (_project_id p)] |})
  | ApiNotFound =>
      (Raise (NoSuchProjectException (_project_id p)),
       {| project_data_cache := None;
          task_cache := task_cache s;
          trace := trace s ++ [ApiFindById (_project_id p)] |})
  | ApiError msg =>
      (Raise (AsanaError msg),
       {| project_data_cache := None;
          task_cache := task_cache s;
          trace := trace s ++ [ApiFindById (_project_id p)] |})
  end.
Proof.
  intros Hc. unfold _project_data, bind at 1, get_state. rewrite Hc.
  unfold except_NotFoundError, api_call, bind, emit, raise, ret,
    set_project_data_cache.
  destruct (find_by_id _ _); simpl; by rewrite ?Hc.
Qed.

Lemma project_data_cached (p : Project) s d :
  project_data_cache s = Some d → _project_data p s = (Ok d, s).
Proof. intros Hc. unfold _project_data, bind, get_state. by rewrite Hc. Qed.

(** C8. The first access to the project metadata (empty cache) raises
    [NoSuchProjectException] for the configured id exactly when the client
    reports NotFound for that id.  When the client answers, the access
    returns the metadata after one request and caches it; from then on, in
    every state that still holds the cache, an access returns the cached
    metadata and leaves the state, hence the trace, as it is: no request is
    made. *)
Theorem project_data_not_found_iff_cached_on_success (p : Project) s :
  project_data_cache s = None →
  (∀ id, (_project_data p s).1 = Raise (NoSuchProjectException id) ↔
         id = _project_id p ∧
         find_by_id (_asana_client p) (_project_id p) = ApiNotFound) ∧
  (∀ d, find_by_id (_asana_client p) (_project_id p) = ApiOk d →
     ∃ s1, _project_data p s = (Ok d, s1) ∧
           project_data_cache s1 = Some d ∧
           trace s1 = trace s ++ [ApiFindById (_project_id p)] ∧
           ∀ s2, project_data_cache s2 = Some d →
                 _project_data p s2 = (Ok d, s2)) ∧
  (∀ d s1, _project_data p s = (Ok d, s1) →
     find_by_id (_asana_client p) (_project_id p) = ApiOk d).
Proof.
  intros Hc. rewrite (project_data_first p s Hc).
  destruct (find_by_id _ _) as [d| |msg] eqn:Hfind; simpl.
  - split; [split; [intros; discriminate|intros [_ ?]; discriminate]|]. split.
    + intros d' [= <-]. eexists. split; [done|]. simpl.
      split; [done|]. split; [done|].
      intros s2. apply project_data_cached.
    + by intros d' s1 [= <- _].
  - split; [|split; intros; discriminate].
    intros id. split; [by intros [= <-]|by intros [-> _]].
  - split; [split; [intros; discriminate|intros [_ ?]; discriminate]|].
    split; intros; discriminate.
Qed.

(** C6, amended.  With a (non-empty) configured table name, [table_name]
    returns [sql_safe_name] of that name, makes no request and leaves the
    state as it is, whatever the project is called.  Without one it accesses
    the project metadata and returns [sql_safe_name] of the project's
    ["name"].  Either way, once a call has returned, a call in any later
    state of the run gives the same name with no further effect. *)
Theorem table_name_sanitizes_configured_or_project_name (p : Project) s :
  (truthy_str (_table_name p) = true →
     table_name p s = (Ok (sql_safe_name (_table_name p)), s)) ∧
  (truthy_str (_table_name p) = false →
     table_name p s =
     match project_name p s with
     | (Ok n, s') => (Ok (sql_safe_name n), s')
     | (Raise e, s') => (Raise e, s')
     end) ∧
  (∀ tn s', table_name p s = (Ok tn, s') →
     ∀ s'', evolves (λ _, True) s' s'' →
            table_name p s'' = (Ok tn, s'')).
Proof.
  split; [|split].
  - intros Hcfg. unfold table_name. by rewrite Hcfg.
  - intros Hcfg. unfold table_name. rewrite Hcfg. unfold bind.
    by destruct (project_name p s) as [[n|e] s'].
  - intros tn s'. unfold table_name.
    destruct (truthy_str (_table_name p)) eqn:Hcfg.
    { by intros [= <- <-]. }
    unfold bind at 1.
    destruct (project_name p s) as [[n|e] s1] eqn:Hn; [|done].
    intros [= <- <-]. revert Hn. unfold project_name, bind at 1.
    destruct (_project_data p s) as [[d|e] s2] eqn:Hd; [|done].
    destruct (d !! "name") as [n'|] eqn:Hname; [|done].
    intros [= <- <-] s'' [_ Hkeep].
    assert (project_data_cache s'' = Some d) as Hc2; [apply Hkeep|].
    { destruct (project_data_cache s) as [d0|] eqn:Hc.
      - rewrite (project_data_cached p s d0 Hc) in Hd.
        by injection Hd as <- <-.
      - rewrite (project_data_first p s Hc) in Hd.
        destruct (find_by_id _ _); [|done..]. by injection Hd as <- <-. }
    unfold bind. rewrite (project_data_cached p s'' d Hc2).
    by rewrite Hname.
Qed.

(** ** Rows under the statements *)

Lemma statement_sql_upsert_of (p : Project) tn t :
  statement_sql tn (upsert_of p t) = upsert_statement p tn t.
Proof.
  unfold statement_sql, upsert_of, upsert_statement. by rewrite map_map.
Qed.

Lemma conflicts_other_gid (new r : gmap string pyval) :
  new !! "gid" ≠ r !! "gid" → conflicts new r = false.
Proof.
  unfold conflicts. intros Hne.
  destruct (new !! "gid") as [[]|]; try done;
    by apply bool_decide_eq_false.
Qed.

Lemma exec_upsert_keeps tbl columns params assignments (r : gmap string pyval) :
  r ∈ tbl →
  conflicts (inserted_row columns params) r = false →
  r ∈ exec tbl (Upsert columns params assignments).
Proof.
  intros Hin Hc. cbn [exec].
  destruct (existsb _ tbl); [|by apply elem_of_app; left].
  apply list_elem_of_In, in_map_iff. exists r.
  split; [by rewrite Hc|by apply list_elem_of_In].
Qed.

Lemma exec_all_upserts_keep (p : Project) ts tbl (r : gmap string pyval) :
  r ∈ tbl →
  (∀ t, t ∈ ts → row_of_task p t !! "gid" ≠ r !! "gid") →
  r ∈ exec_all tbl (map (upsert_of p) ts).
Proof.
  unfold exec_all. revert tbl.
  induction ts as [|t ts IH]; intros tbl Hin Hts; [done|].
  cbn [map foldl]. apply IH.
  - apply exec_upsert_keeps; [done|]. apply conflicts_other_gid.
    apply Hts. by left.
  - intros t' Ht'. apply Hts. by right.
Qed.

(** ** Upsert and delete statements of a run *)

Lemma upsert_statement_is_upsert p tn t : is_upsert (upsert_statement p tn t).1.
Proof. by eexists _, _, _, _. Qed.



(** A run of [synchronize], however it ends, has two phases: one that sends
    no delete statement, then one that sends no upsert statement. *)
Lemma synchronize_phases (p : Project) s :
  ∃ s1, evolves no_delete s s1 ∧ evolves no_upsert s1 (synchronize p s).2.
Proof.
  unfold synchronize.
  pose proof (respects_db_task_ids no_delete p not_write_no_delete s) as H1.
  unfold bind at 1. destruct (db_task_ids p s) as [[db_ids|e] s1];
    simpl in H1; [|by exists s1].
  pose proof (respects_asana_task_ids no_delete p not_write_no_delete s1)
    as H2.
  unfold bind at 1. destruct (asana_task_ids p s1) as [[asana_ids|e] s2];
    simpl in H2; [|exists s2; split; [by etrans|done]].
  pose proof (respects_tasks no_delete p not_write_no_delete s2) as H3.
  unfold bind at 1. destruct (_tasks p s2) as [[ts|e] s3];
    simpl in H3; [|exists s3; split; [by do 2 (etrans; [done|])|done]].
  pose proof (respects_for_each (evolves no_delete) ts (insert_or_replace p))
    as H4.
  specialize (H4 (λ t, respects_insert_or_replace no_delete p t
                         not_write_no_delete (λ _ _ H, H)) s3).
  unfold bind at 1.
  destruct (for_each ts (insert_or_replace p) s3) as [[[]|e] s4]; simpl in H4.
  2:{ exists s4. split; [|done]. by do 3 (etrans; [done|]). }
  exists s4. split; [by do 3 (etrans; [done|])|].
  apply (respects_for_each (evolves no_upsert)). intros id.
  apply respects_delete; [apply not_write_no_upsert|done].
Qed.

(** C1. In a run of [synchronize] that completes (there is an identifier
    field, the table name resolves, the rows read have a first cell, the
    tasks are fetched, and every truthy extracted value is a string), the
    statements sent are exactly: one upsert per fetched task, in fetch order,
    whether or not its identifier is already stored, followed by one delete
    per element of [idsInDb ∖ idsRemote], where [idsInDb] collects the
    first cell of every row read from the identifier column and [idsRemote]
    the ["gid"] of every fetched task.  So each identifier deleted is deleted
    once, and an identifier is deleted iff it is stored and not remote. *)
Theorem synchronize_upserts_all_deletes_difference
    (p : Project) s tn id_field rest cells ts :
  _direct_fields p = id_field :: rest →
  resolved_table_name p s = Some tn →
  first_cells (read (_db_client p)
                 (SELECT_TEMPLATE (sql_name id_field) tn)) = Ok cells →
  fetched_tasks p s = Some ts →
  forallb (values_ok (_direct_fields p)) ts = true →
  ∃ s' to_delete,
    synchronize p s = (Ok tt, s') ∧
    db_writes (trace s') =
      db_writes (trace s)
      ++ map (upsert_statement p tn) ts
      ++ map (delete_statement tn id_field) to_delete ∧
    NoDup to_delete ∧
    ∀ id, id ∈ to_delete ↔
          id ∈ cells ∧ ¬ ∃ t, t ∈ ts ∧ dict_get t "gid" = id.
Proof.
  intros Hf Hres Hcells Hts Hok.
  destruct (synchronize_Ok p s tn id_field rest cells ts Hf Hres Hcells Hts Hok)
    as (s' & Hrun & Hw).
  exists s', (elements (list_to_set cells ∖ remote_ids ts)).
  split; [done|]. split; [done|]. split; [apply NoDup_elements|].
  intros id. rewrite elem_of_elements, elem_of_difference.
  unfold remote_ids. rewrite !elem_of_list_to_set. split.
  - intros [Hin Hnot]. split; [done|]. intros (t & Ht & Hg). apply Hnot.
    apply list_elem_of_In, in_map_iff. exists t.
    split; [done|by apply list_elem_of_In].
  - intros [Hin Hnot]. split; [done|]. intros Hm.
    apply list_elem_of_In, in_map_iff in Hm as (t & Hg & Ht). apply Hnot.
    exists t. split; [by apply list_elem_of_In|done].
Qed.

(** C2. Every run of [synchronize], completed or aborted, splits into a
    first phase whose statements are all upserts and a second phase whose
    statements are all deletes: no upsert is sent after a delete.  In a run
    that completes, no delete statement carries the identifier of a fetched
    task, so an identifier that is both stored and remote is never deleted
    at any point of the run. *)
Theorem synchronize_upserts_before_deletes (p : Project) s :
  (∃ ups dels,
     trace (synchronize p s).2 = trace s ++ ups ++ dels ∧
     Forall no_delete ups ∧ Forall no_upsert dels) ∧
  (∀ tn id_field rest cells ts,
     _direct_fields p = id_field :: rest →
     resolved_table_name p s = Some tn →
     first_cells (read (_db_client p)
                    (SELECT_TEMPLATE (sql_name id_field) tn)) = Ok cells →
     fetched_tasks p s = Some ts →
     forallb (values_ok (_direct_fields p)) ts = true →
     ∃ s' writes,
       synchronize p s = (Ok tt, s') ∧
       db_writes (trace s') = db_writes (trace s) ++ writes ∧
       ∀ sql params id,
         (sql, params) ∈ writes → is_delete sql → id ∈ params →
         ¬ ∃ t, t ∈ ts ∧ dict_get t "gid" = id).
Proof.
  split.
  - destruct (synchronize_phases p s)
      as (s1 & [(ups & Hu & HFu) _] & [(dels & Hd & HFd) _]).
    exists ups, dels. by rewrite Hd, Hu, <- app_assoc.
  - intros tn id_field rest cells ts Hf Hres Hcells Hts Hok.
    destruct (synchronize_Ok p s tn id_field rest cells ts
                Hf Hres Hcells Hts Hok) as (s' & Hrun & Hw).
    eexists s', _. split; [done|]. split; [exact Hw|].
    intros sql params id Hin Hdel Hid (t & Ht & Hg).
    apply elem_of_app in Hin as [Hin|Hin];
      apply list_elem_of_In, in_map_iff in Hin as (x & Hx & Hin).
    + apply (upsert_not_delete sql); [|done].
      replace sql with (upsert_statement p tn x).1 by by rewrite Hx.
      apply upsert_statement_is_upsert.
    + injection Hx as _ <-. apply list_elem_of_In in Hin.
      apply elem_of_elements, elem_of_difference in Hin as [_ Hnot].
      apply Hnot. apply list_elem_of_singleton in Hid as ->.
      unfold remote_ids. apply elem_of_list_to_set, list_elem_of_In, in_map_iff.
      exists t. split; [done|by apply list_elem_of_In].
Qed.

(** C5. No run of [export], completed or aborted, sends a delete statement:
    every statement it sends is built from the upsert template.  In a run
    that completes, the statements sent are exactly one upsert per fetched
    task, in fetch order; read as SQL, they leave in the table every row
    whose ["gid"] is not the ["gid"] value of a fetched task, as it was. *)
Theorem export_upserts_each_task_never_deletes (p : Project) s :
  (∃ evs, trace (export p s).2 = trace s ++ evs ∧
          ∀ sql params, DbWrite sql params ∈ evs →
                        is_upsert sql ∧ ¬ is_delete sql) ∧
  (∀ ts tn,
     fetched_tasks p s = Some ts →
     ts = [] ∨ resolved_table_name p s = Some tn →
     forallb (values_ok (_direct_fields p)) ts = true →
     ∃ s', export p s = (Ok tt, s') ∧
           db_writes (trace s') =
             db_writes (trace s)
             ++ map (statement_sql tn) (map (upsert_of p) ts) ∧
           ∀ tbl (r : gmap string pyval),
             r ∈ tbl →
             (∀ t, t ∈ ts → row_of_task p t !! "gid" ≠ r !! "gid") →
             r ∈ exec_all tbl (map (upsert_of p) ts)).
Proof.
  split.
  - destruct (respects_export p s) as [(evs & Ht & HF) _].
    exists evs. split; [done|]. intros sql params Hin.
    rewrite Forall_forall in HF. specialize (HF _ Hin). simpl in HF.
    split; [done|by apply upsert_not_delete].
  - intros ts tn Hts Hres Hok.
    destruct (export_Ok p s ts tn Hts Hres Hok) as (s' & Hrun & Hw).
    exists s'. split; [done|]. split.
    + rewrite Hw, map_map. f_equal. apply map_ext. intros t.
      by rewrite statement_sql_upsert_of.
    + intros tbl r. apply exec_all_upserts_keep.
Qed.

(** C7. On a first, successful [_tasks], the project's tasks are requested
    with the field selection [fields_arg]; for every top-level task, in
    order, its sub-tasks are requested by its ["gid"] with the same field
    selection; and the list returned and cached is flat: the top-level
    tasks followed by the sub-tasks of each.  Every sub-task is thus a
    record of the list in its own right, and its own ["gid"] is among the
    identifiers [asana_task_ids] collects. *)
Theorem tasks_flattens_subtasks (p : Project) s tops :
  task_cache s = None →
  find_by_project (_asana_client p) (_project_id p) (fields_arg p)
    = ApiOk tops →
  forallb (expandable p) tops = true →
  ∃ s',
    _tasks p s = (Ok (tops ++ flat_map (sub_tasks_of p) tops), s') ∧
    task_cache s' = Some (tops ++ flat_map (sub_tasks_of p) tops) ∧
    trace s' =
      trace s
      ++ [ApiFindByProject (_project_id p) (fields_arg p);
          ApiFindByProject (_project_id p) (fields_arg p)]
      ++ flat_map (λ t,
           ApiSubtasks (dict_get t "gid") (fields_arg p)
             :: map (λ st, Print (dict_get st "name")) (sub_tasks_of p t))
           tops ∧
    asana_task_ids p s' =
      (Ok (remote_ids (tops ++ flat_map (sub_tasks_of p) tops)), s') ∧
    ∀ t st, t ∈ tops → st ∈ sub_tasks_of p t →
            st ∈ tops ++ flat_map (sub_tasks_of p) tops ∧
            dict_get st "gid"
              ∈ remote_ids (tops ++ flat_map (sub_tasks_of p) tops).
Proof.
  intros Hc Hfetch Hex. eexists. split; [by apply tasks_first_Ok|].
  split; [done|]. split; [done|]. split.
  - unfold asana_task_ids. erewrite bind_Ok; [done|].
    by apply tasks_cached.
  - intros t st Ht Hst.
    assert (st ∈ tops ++ flat_map (sub_tasks_of p) tops) as Hin.
    { apply elem_of_app. right. apply list_elem_of_In, in_flat_map.
      exists t. by rewrite <- !list_elem_of_In. }
    split; [done|]. unfold remote_ids.
    apply elem_of_list_to_set, list_elem_of_In, in_map_iff.
    exists st. split; [done|by apply list_elem_of_In].
Qed.

(** ** The update-set and its quoting *)

Lemma values_ok_false_TypeError (p : Project) (t : task) s :
  values_ok (_direct_fields p) t = false →
  insert_or_replace p t s = (Raise TypeError, s).
Proof.
  intros Hok. unfold insert_or_replace.
  by rewrite set_command_loop_spec, Hok.
Qed.

(** *** The text of the update-set, read as SQL *)
















(** ** Tasks without an identifier *)

Lemma top_task_loop_KeyError (p : Project) tops1 t tops2 s cur :
  task_cache s = Some cur →
  forallb (expandable p) tops1 = true →
  t !! "gid" = None →
  (for_each (tops1 ++ t :: tops2) (λ t,
      task_id <- subscript t "gid" ;;
      sub_tasks <- api_call (ApiSubtasks task_id (fields_arg p))
                     (subtasks (_asana_client p) task_id (fields_arg p)) ;;
      for_each sub_tasks (λ sub_task,
        name <- subscript sub_task "name" ;;
        emit (Print name) ;;;
        task_cache_append sub_task)) s).1 = Raise (KeyError "gid").
Proof.
  intros Hc Hex Hg.
  erewrite for_each_app; [|by apply top_task_loop_Ok].
  cbn [for_each]. unfold subscript at 1. rewrite Hg. done.
Qed.

Lemma tasks_first_KeyError (p : Project) tops1 t tops2 s :
  task_cache s = None →
  find_by_project (_asana_client p) (_project_id p) (fields_arg p)
    = ApiOk (tops1 ++ t :: tops2) →
  forallb (expandable p) tops1 = true →
  t !! "gid" = None →
  (_tasks p s).1 = Raise (KeyError "gid").
Proof.
  intros Hc Hfetch Hex Hg. unfold _tasks.
  erewrite bind_Ok by reflexivity. cbn beta. rewrite Hc, Hfetch.
  unfold bind at 1.
  match goal with
  | |- context [(let (r, s') := ?m s in _)] =>
      assert ((m s).1 = Raise (KeyError "gid")) as Hm
  end.
  { erewrite bind_Ok by reflexivity.
    erewrite bind_Ok by reflexivity.
    erewrite bind_Ok by reflexivity.
    by apply top_task_loop_KeyError with (cur := tops1 ++ t :: tops2). }
  revert Hm.
  match goal with
  | |- context [(let (r, s') := ?m s in _)] => destruct (m s) as [[[]|e] s1]
  end; simpl; intros H; [discriminate H|by injection H as ->].
Qed.

(** C10, amended.  [asana_task_ids] collects [task.get("gid")] over the task
    list: once the list is cached the call cannot raise, and a record
    without ["gid"] contributes [None].  Such a record matches no stored
    identifier other than [None], so it cannot keep any row with another
    identifier from being deleted.  While the cache is empty, though, the
    call first fetches the tasks, and [_tasks] subscripts ["gid"] on every
    top-level task: a sub-task record may lack ["gid"], but a top-level one
    that does makes the call raise [KeyError]. *)
Theorem asana_task_ids_none_for_missing_gid (p : Project) s :
  (∀ ts, task_cache s = Some ts →
         asana_task_ids p s = (Ok (remote_ids ts), s)) ∧
  (∀ tops, task_cache s = None →
     find_by_project (_asana_client p) (_project_id p) (fields_arg p)
       = ApiOk tops →
     forallb (expandable p) tops = true →
     ∃ s', asana_task_ids p s
           = (Ok (remote_ids (tops ++ flat_map (sub_tasks_of p) tops)), s')) ∧
  (∀ ts t, t ∈ ts → t !! "gid" = None → PNone ∈ remote_ids ts) ∧
  (∀ (db_ids : gset pyval) ts id,
     id ∈ db_ids → id ≠ PNone →
     (∀ t, t ∈ ts → t !! "gid" ≠ Some id) →
     id ∈ db_ids ∖ remote_ids ts) ∧
  (∀ tops1 t tops2, task_cache s = None →
     find_by_project (_asana_client p) (_project_id p) (fields_arg p)
       = ApiOk (tops1 ++ t :: tops2) →
     forallb (expandable p) tops1 = true →
     t !! "gid" = None →
     (asana_task_ids p s).1 = Raise (KeyError "gid")).
Proof.
  split; [|split; [|split; [|split]]].
  - intros ts Hc. unfold asana_task_ids.
    erewrite bind_Ok; [done|]. by apply tasks_cached.
  - intros tops Hc Hfetch Hex. eexists. unfold asana_task_ids.
    erewrite bind_Ok; [done|]. by apply tasks_first_Ok.
  - intros ts t Ht Hg. unfold remote_ids.
    apply elem_of_list_to_set, list_elem_of_In, in_map_iff. exists t.
    split; [|by apply list_elem_of_In]. unfold dict_get. by rewrite Hg.
  - intros db_ids ts id Hin Hne Hts. apply elem_of_difference.
    split; [done|]. unfold remote_ids. intros Hm.
    apply elem_of_list_to_set, list_elem_of_In, in_map_iff in Hm
      as (t & Hg & Ht).
    apply list_elem_of_In in Ht. apply (Hts t Ht). unfold dict_get in Hg.
    destruct (t !! "gid") as [g|]; simpl in Hg; [by rewrite Hg|done].
  - intros tops1 t tops2 Hc Hfetch Hex Hg.
    pose proof (tasks_first_KeyError p tops1 t tops2 s Hc Hfetch Hex Hg)
      as Hraise.
    unfold asana_task_ids, bind.
    destruct (_tasks p s) as [[ts|e] s1]; simpl in *;
      [discriminate Hraise|by injection Hraise as ->].
Qed.

(** * Further properties *)

Lemma bind_Raise {A B} (m : M A) (k : A → M B) s e s' :
  m s = (Raise e, s') → bind m k s = (Raise e, s').
Proof. unfold bind. by intros ->. Qed.

(** ** [table_name], case by case *)

Lemma table_name_configured (p : Project) s :
  truthy_str (_table_name p) = true →
  table_name p s = (Ok (sql_safe_name (_table_name p)), s).
Proof. intros Hcfg. unfold table_name. by rewrite Hcfg. Qed.

Lemma table_name_cached (p : Project) s d :
  truthy_str (_table_name p) = false →
  project_data_cache s = Some d →
  table_name p s =
  (match d !! "name" with
   | Some n => Ok (sql_safe_name n)
   | None => Raise (KeyError "name")
   end, s).
Proof.
  intros Hcfg Hc. unfold table_name, project_name. rewrite Hcfg.
  unfold bind. rewrite (project_data_cached p s d Hc).
  by destruct (d !! "name").
Qed.

Lemma table_name_first (p : Project) s :
  truthy_str (_table_name p) = false →
  project_data_cache s = None →
  table_name p s =
  match find_by_id (_asana_client p) (_project_id p) with
  | ApiOk d =>
      (match d !! "name" with
       | Some n => Ok (sql_safe_name n)
       | None => Raise (KeyError "name")
       end,
       {| project_data_cache := Some d;
          task_cache := task_cache s;
          trace := trace s ++ [ApiFindById (_project_id p)] |})
  | ApiNotFound =>
      (Raise (NoSuchProjectException (_project_id p)),
       {| project_data_cache := None;
          task_cache := task_cache s;
          trace := trace s ++ [ApiFindById (_project_id p)] |})
  | ApiError msg =>
      (Raise (AsanaError msg),
       {| project_data_cache := None;
          task_cache := task_cache s;
          trace := trace s ++ [ApiFindById (_project_id p)] |})
  end.
Proof.
  intros Hcfg Hc. unfold table_name, project_name. rewrite Hcfg.
  unfold bind. rewrite (project_data_first p s Hc).
  destruct (find_by_id _ _) as [d| |msg]; try done.
  by destruct (d !! "name").
Qed.

(** A resolved table name, with the exact state [table_name] leaves, and
    the fact that it stays resolved with nothing left to fetch. *)
Lemma table_name_resolved_run (p : Project) s tn :
  resolved_table_name p s = Some tn →
  ∃ s', table_name p s = (Ok tn, s') ∧
        trace s' = trace s ++ name_fetch_events p s ∧
        task_cache s' = task_cache s ∧
        table_name p s' = (Ok tn, s') ∧
        ∀ e, table_name p (emit e s').2 = (Ok tn, (emit e s').2).
Proof.
  unfold resolved_table_name, name_fetch_events.
  destruct (truthy_str (_table_name p)) eqn:Hcfg.
  { intros [= <-]. exists s. rewrite app_nil_r.
    repeat split; try done; intros; by apply table_name_configured. }
  destruct (project_data_cache s) as [d|] eqn:Hc.
  { intros Hn. exists s. rewrite app_nil_r.
    destruct (d !! "name") as [n|] eqn:Hname; [|done].
    injection Hn as <-.
    assert (∀ s0, project_data_cache s0 = Some d →
                  table_name p s0 = (Ok (sql_safe_name n), s0)) as Hrun.
    { intros s0 Hc0. rewrite (table_name_cached p s0 d Hcfg Hc0).
      by rewrite Hname. }
    repeat split; try done; intros; by apply Hrun. }
  intros Hn. rewrite (table_name_first p s Hcfg Hc).
  destruct (find_by_id _ _) as [d| |msg]; [|done..].
  destruct (d !! "name") as [n|] eqn:Hname; [|done].
  injection Hn as <-. eexists. split; [done|]. cbn [trace task_cache].
  assert (∀ s0, project_data_cache s0 = Some d →
                table_name p s0 = (Ok (sql_safe_name n), s0)) as Hrun.
  { intros s0 Hc0. rewrite (table_name_cached p s0 d Hcfg Hc0).
    by rewrite Hname. }
  repeat split; try done; intros; by apply Hrun.
Qed.

Lemma table_name_unresolved_run (p : Project) s :
  resolved_table_name p s = None →
  ∃ s', table_name p s = (Raise (table_name_failure p s), s') ∧
        trace s' = trace s ++ name_fetch_events p s ∧
        task_cache s' = task_cache s.
Proof.
  unfold resolved_table_name, name_fetch_events, table_name_failure.
  destruct (truthy_str (_table_name p)) eqn:Hcfg; [done|].
  destruct (project_data_cache s) as [d|] eqn:Hc.
  { intros Hn. exists s. rewrite (table_name_cached p s d Hcfg Hc).
    destruct (d !! "name"); [done|]. by rewrite app_nil_r. }
  intros Hn. rewrite (table_name_first p s Hcfg Hc).
  destruct (find_by_id _ _) as [d| |msg]; [|by eexists..].
  destruct (d !! "name"); [done|]. by eexists.
Qed.

Lemma resolved_table_name_emit (p : Project) s e :
  resolved_table_name p (emit e s).2 = resolved_table_name p s.
Proof. done. Qed.

(** ** [create_table] *)

(** X1. When the table name resolves, [create_table] returns after sending
    exactly one statement, with no parameters: the create-table template
    filled with the table name and with the column definitions of the
    direct fields, in their order, joined by commas.  It prints a banner,
    the table name, a second banner and the statement before sending it, and
    although it asks for the table name twice it requests the project
    metadata at most once. *)
Theorem create_table_sends_one_statement (p : Project) s tn :
  resolved_table_name p s = Some tn →
  ∃ s', create_table p s = (Ok tt, s') ∧
        trace s' =
          trace s
          ++ [Print (PStr "create_table...")]
          ++ name_fetch_events p s
          ++ [Print (PStr tn);
              Print (PStr "db write sql:");
              Print (PStr (CREATE_TABLE_TEMPLATE tn
                             (join "," (map field_definition_sql
                                          (_direct_fields p)))));
              DbWrite (CREATE_TABLE_TEMPLATE tn
                         (join "," (map field_definition_sql
                                      (_direct_fields p)))) []] ∧
        task_cache s' = task_cache s.
Proof.
  intros Hres. unfold create_table.
  erewrite bind_Ok by reflexivity.
  destruct (table_name_resolved_run p
              (emit (Print (PStr "create_table...")) s).2 tn)
    as (s1 & Hrun1 & Ht1 & Htc1 & _ & Hrun2); [done|].
  erewrite bind_Ok by exact Hrun1.
  erewrite bind_Ok by reflexivity.
  erewrite bind_Ok by apply Hrun2.
  erewrite bind_Ok by reflexivity.
  erewrite bind_Ok by reflexivity.
  eexists. split; [reflexivity|]. cbn [emit snd trace task_cache].
  rewrite Ht1. cbn [emit snd trace]. split; [|done].
  unfold name_fetch_events. cbn [emit snd project_data_cache].
  by rewrite <- !app_assoc.
Qed.

(** X2. When the table name does not resolve, [create_table] raises what
    [table_name] raises (the dedicated exception for an unknown project,
    the client's other errors unchanged, [KeyError] for metadata without a
    name) after the banner and the one metadata request: no statement is
    sent and nothing else is printed. *)
Theorem create_table_fails_before_any_statement (p : Project) s :
  resolved_table_name p s = None →
  ∃ s', create_table p s = (Raise (table_name_failure p s), s') ∧
        trace s' =
          trace s ++ [Print (PStr "create_table...")]
          ++ name_fetch_events p s ∧
        db_writes (trace s') = db_writes (trace s).
Proof.
  intros Hres. unfold create_table.
  erewrite bind_Ok by reflexivity.
  destruct (table_name_unresolved_run p
              (emit (Print (PStr "create_table...")) s).2)
    as (s1 & Hrun1 & Ht1 & _); [done|].
  erewrite bind_Raise by exact Hrun1.
  exists s1. split; [done|]. rewrite Ht1. cbn [emit snd trace].
  unfold name_fetch_events. cbn [emit snd project_data_cache].
  rewrite <- app_assoc. split; [done|].
  rewrite !db_writes_app. cbn.
  destruct (truthy_str _); [by rewrite !app_nil_r|].
  destruct (project_data_cache s); by rewrite !app_nil_r.
Qed.

(** ** [Project.__init__] *)

(** X3. [Project.__init__] sorts the configured fields into direct and
    indirect ones without losing, repeating or reordering any: each list is
    the configured list with the others taken out.  Every direct field has
    a non-empty column name and every indirect field has none, so no
    column list the engine writes holds an empty name. *)
Theorem new_Project_partitions_fields
    (client : asana_client) (db : db_client) (cfg : config)
    (fields : list field) :
  let p := new_Project client db cfg fields in
  _direct_fields p ++ _indirect_fields p ≡ₚ fields ∧
  _direct_fields p `sublist_of` fields ∧
  _indirect_fields p `sublist_of` fields ∧
  (∀ f, f ∈ fields →
        (f ∈ _direct_fields p ↔ sql_name f ≠ EmptyString) ∧
        (f ∈ _indirect_fields p ↔ sql_name f = EmptyString)) ∧
  EmptyString ∉ map sql_name (_direct_fields p).
Proof.
  cbn zeta. cbn [new_Project _direct_fields _indirect_fields].
  assert (∀ (P : field → bool) (l : list field),
            List.filter P l `sublist_of` l) as Hsub.
  { intros P l. induction l as [|f l IH]; [done|]. cbn [List.filter].
    destruct (P f); [by apply sublist_skip|by apply sublist_cons]. }
  split; [|split; [apply Hsub|split; [apply Hsub|split]]].
  - induction fields as [|f fields IH]; [done|]. cbn [List.filter].
    destruct (truthy_str (sql_name f)); cbn [negb].
    + cbn [app]. by f_equiv.
    + rewrite <- Permutation_middle. by f_equiv.
  - intros f Hf. apply list_elem_of_In in Hf.
    rewrite !list_elem_of_In, !filter_In. unfold truthy_str.
    rewrite negb_involutive, negb_true_iff, String.eqb_neq, String.eqb_eq.
    tauto.
  - intros Hin. apply list_elem_of_In, in_map_iff in Hin as (f & Hname & Hf).
    apply filter_In in Hf as [_ Hf]. unfold truthy_str in Hf.
    apply negb_true_iff, String.eqb_neq in Hf. done.
Qed.

(** X4. The field selection sent with every task request is built from the
    names required by all configured fields, direct or indirect: a name is
    selected iff some configured field requires it, and however many fields
    require it, it is selected once. *)
Theorem required_fields_cover_all_configured_fields
    (client : asana_client) (db : db_client) (cfg : config)
    (fields : list field) :
  let p := new_Project client db cfg fields in
  _required_fields p = list_to_set (flat_map required_fields fields) ∧
  NoDup (elements (_required_fields p)) ∧
  (∀ x, x ∈ elements (_required_fields p) ↔
        ∃ f, f ∈ fields ∧ x ∈ required_fields f) ∧
  fields_arg p = join "," (elements (_required_fields p)).
Proof.
  cbn zeta.
  assert (∀ x, x ∈ _required_fields (new_Project client db cfg fields) ↔
               ∃ f, f ∈ fields ∧ x ∈ required_fields f) as Hin.
  { intros x. unfold _required_fields.
    cbn [new_Project _direct_fields _indirect_fields].
    rewrite elem_of_list_to_set, list_elem_of_In, in_flat_map. split.
    - intros (f & Hf & Hx). exists f. rewrite !list_elem_of_In.
      split; [|done]. apply in_app_iff in Hf as [Hf|Hf];
        by apply filter_In in Hf as [? _].
    - intros (f & Hf & Hx). exists f. split; [|by apply list_elem_of_In].
      apply list_elem_of_In in Hf. apply in_app_iff. rewrite !filter_In.
      destruct (truthy_str (sql_name f)); [by left|by right]. }
  split; [|split; [apply NoDup_elements|split; [|done]]].
  - apply set_eq. intros x. rewrite Hin.
    rewrite elem_of_list_to_set, list_elem_of_In, in_flat_map.
    split; intros (f & Hf & Hx); exists f.
    + by rewrite <- !list_elem_of_In.
    + by rewrite !list_elem_of_In.
  - intros x. by rewrite elem_of_elements.
Qed.

(** ** The task cache *)

#[global] Instance cache_grows_refl : Reflexive cache_grows.
Proof. intros s cur Hc. exists []. by rewrite app_nil_r. Qed.

#[global] Instance cache_grows_trans : Transitive cache_grows.
Proof.
  intros s1 s2 s3 H12 H23 cur Hc.
  destruct (H12 cur Hc) as (m1 & Hc2).
  destruct (H23 _ Hc2) as (m2 & Hc3).
  exists (m1 ++ m2). by rewrite Hc3, app_assoc.
Qed.

Lemma cache_grows_emit e : respects cache_grows (emit e).
Proof. intros s cur Hc. exists []. by rewrite app_nil_r. Qed.

Lemma cache_grows_append t : respects cache_grows (task_cache_append t).
Proof. intros s cur Hc. exists [t]. simpl. by rewrite Hc. Qed.

Lemma cache_grows_top_task_loop (p : Project) (tops : list task) :
  respects cache_grows
    (for_each tops (λ t,
       task_id <- subscript t "gid" ;;
       sub_tasks <- api_call (ApiSubtasks task_id (fields_arg p))
                      (subtasks (_asana_client p) task_id (fields_arg p)) ;;
       for_each sub_tasks (λ sub_task,
         name <- subscript sub_task "name" ;;
         emit (Print name) ;;;
         task_cache_append sub_task))).
Proof.
  apply respects_for_each; try apply _. intros t.
  apply respects_bind; try apply _; [apply respects_subscript; apply _|].
  intros g. apply respects_bind; try apply _.
  { apply respects_api_call; try apply _. apply cache_grows_emit. }
  intros subs. apply respects_for_each; try apply _. intros st.
  apply respects_bind; try apply _; [apply respects_subscript; apply _|].
  intros n. apply respects_bind; try apply _; [apply cache_grows_emit|].
  intros _. apply cache_grows_append.
Qed.

(** A first [_tasks] whose project fetch is answered: the cache is set to
    the fetched tasks before any sub-task is asked for, and whatever
    happens next it only grows. *)
Lemma tasks_first_sets_cache (p : Project) s tops :
  task_cache s = None →
  find_by_project (_asana_client p) (_project_id p) (fields_arg p)
    = ApiOk tops →
  ∃ more,
    task_cache (_tasks p s).2 = Some (tops ++ more) ∧
    ((_tasks p s).1 = Ok (tops ++ more) ∨ ∃ e, (_tasks p s).1 = Raise e).
Proof.
  intros Hc Hfetch.
  assert (∃ m : M unit,
            _tasks p s = bind m (λ _, read_task_cache) s ∧
            ∃ more, task_cache (m s).2 = Some (tops ++ more))
    as (m & Heq & more & Hm).
  { unfold _tasks. erewrite bind_Ok by reflexivity. cbn beta.
    rewrite Hc, Hfetch. eexists. split; [reflexivity|].
    erewrite bind_Ok by reflexivity.
    erewrite bind_Ok by reflexivity.
    erewrite bind_Ok by reflexivity.
    by apply cache_grows_top_task_loop. }
  rewrite Heq. unfold bind, read_task_cache.
  destruct (m s) as [[[]|e] s1]; cbn in *; exists more.
  - rewrite Hm. by split; [|left].
  - split; [done|]. right. by exists e.
Qed.

(** X5. [_tasks] returns what it has cached: the list a call returns is the
    cached list from then on, and a call in any state that holds it returns
    it again and leaves the state as it is, without a request. *)
Theorem tasks_returns_and_keeps_the_cache (p : Project) s ts s' :
  _tasks p s = (Ok ts, s') →
  task_cache s' = Some ts ∧
  ∀ s'', task_cache s'' = Some ts → _tasks p s'' = (Ok ts, s'').
Proof.
  intros Hrun. split; [|intros s''; apply tasks_cached].
  destruct (task_cache s) as [cur|] eqn:Hc.
  { rewrite (tasks_cached p s cur Hc) in Hrun. by injection Hrun as <- <-. }
  destruct (find_by_project (_asana_client p) (_project_id p) (fields_arg p))
    as [tops| |msg] eqn:Hfetch.
  - destruct (tasks_first_sets_cache p s tops Hc Hfetch) as (more & Hm & Hr).
    rewrite Hrun in Hm, Hr. cbn in Hm, Hr.
    destruct Hr as [[= ->]|[e He]]; [done|discriminate He].
  - revert Hrun. unfold _tasks. erewrite bind_Ok by reflexivity. cbn beta.
    rewrite Hc, Hfetch. discriminate.
  - revert Hrun. unfold _tasks. erewrite bind_Ok by reflexivity. cbn beta.
    rewrite Hc, Hfetch. discriminate.
Qed.

(** X6. The cache is filled before the sub-tasks are fetched.  So when the
    project fetch is answered and a later step raises (a sub-task request
    fails, a task has no ["gid"], a sub-task no ["name"]), the cache is
    left set to the fetched tasks and the sub-tasks appended so far, and a
    second call returns that partial list as if it were complete: it does
    not raise and makes no request. *)
Theorem tasks_failure_leaves_partial_cache (p : Project) s tops e s' :
  task_cache s = None →
  find_by_project (_asana_client p) (_project_id p) (fields_arg p)
    = ApiOk tops →
  _tasks p s = (Raise e, s') →
  ∃ more, task_cache s' = Some (tops ++ more) ∧
          _tasks p s' = (Ok (tops ++ more), s').
Proof.
  intros Hc Hfetch Hrun.
  destruct (tasks_first_sets_cache p s tops Hc Hfetch) as (more & Hm & _).
  rewrite Hrun in Hm. cbn in Hm. exists more.
  split; [done|by apply tasks_cached].
Qed.

(** X7. When the project fetch itself fails, a first [_tasks] raises the
    client's error as it is (a NotFound of the client stays
    [NotFoundError]; only the metadata access turns it into the dedicated
    exception) after that single request, and the cache stays empty, so the
    next call fetches again. *)
Theorem tasks_fetch_failure_is_not_cached (p : Project) s :
  task_cache s = None →
  (find_by_project (_asana_client p) (_project_id p) (fields_arg p)
     = ApiNotFound →
   _tasks p s =
   (Raise NotFoundError,
    {| project_data_cache := project_data_cache s;
       task_cache := None;
       trace := trace s
                ++ [ApiFindByProject (_project_id p) (fields_arg p)] |})) ∧
  (∀ msg,
     find_by_project (_asana_client p) (_project_id p) (fields_arg p)
       = ApiError msg →
     _tasks p s =
     (Raise (AsanaError msg),
      {| project_data_cache := project_data_cache s;
         task_cache := None;
         trace := trace s
                  ++ [ApiFindByProject (_project_id p) (fields_arg p)] |})).
Proof.
  intros Hc. split; [intros Hfetch|intros msg Hfetch];
    unfold _tasks; (erewrite bind_Ok by reflexivity); cbn beta;
    rewrite Hc, Hfetch; cbn; by rewrite Hc.
Qed.

Lemma sub_task_loop_KeyError (subs1 : list task) st subs2 s cur :
  task_cache s = Some cur →
  forallb has_name subs1 = true →
  st !! "name" = None →
  (for_each (subs1 ++ st :: subs2) (λ sub_task,
      name <- subscript sub_task "name" ;;
      emit (Print name) ;;;
      task_cache_append sub_task) s).1 = Raise (KeyError "name").
Proof.
  intros Hc Hn Hst.
  erewrite for_each_app; [|by apply sub_task_loop_Ok].
  cbn [for_each]. unfold subscript at 1. rewrite Hst. done.
Qed.

Lemma top_task_body_name_KeyError
    (p : Project) (t : task) s cur g subs1 st subs2 :
  task_cache s = Some cur →
  t !! "gid" = Some g →
  subtasks (_asana_client p) g (fields_arg p)
    = ApiOk (subs1 ++ st :: subs2) →
  forallb has_name subs1 = true →
  st !! "name" = None →
  ((task_id <- subscript t "gid" ;;
    sub_tasks <- api_call (ApiSubtasks task_id (fields_arg p))
                   (subtasks (_asana_client p) task_id (fields_arg p)) ;;
    for_each sub_tasks (λ sub_task,
      name <- subscript sub_task "name" ;;
      emit (Print name) ;;;
      task_cache_append sub_task)) s).1 = Raise (KeyError "name").
Proof.
  intros Hc Hg Hsubs Hn Hst. unfold subscript at 1. rewrite Hg.
  erewrite bind_Ok by reflexivity.
  erewrite bind_Ok; [|by unfold api_call; rewrite Hsubs].
  by apply sub_task_loop_KeyError with (cur := cur).
Qed.

(** X8. Every sub-task's ["name"] is printed while the tasks are fetched, so
    a sub-task record without ["name"] makes a first [_tasks] raise
    [KeyError], whether or not any configured field requires the name. *)
Theorem tasks_subtask_without_name_raises
    (p : Project) s tops1 t tops2 g subs1 st subs2 :
  task_cache s = None →
  find_by_project (_asana_client p) (_project_id p) (fields_arg p)
    = ApiOk (tops1 ++ t :: tops2) →
  forallb (expandable p) tops1 = true →
  t !! "gid" = Some g →
  subtasks (_asana_client p) g (fields_arg p)
    = ApiOk (subs1 ++ st :: subs2) →
  forallb has_name subs1 = true →
  st !! "name" = None →
  (_tasks p s).1 = Raise (KeyError "name").
Proof.
  intros Hc Hfetch Hex Hg Hsubs Hn Hst.
  assert (∃ m : M unit,
            _tasks p s = bind m (λ _, read_task_cache) s ∧
            (m s).1 = Raise (KeyError "name")) as (m & Heq & Hm).
  { unfold _tasks. erewrite bind_Ok by reflexivity. cbn beta.
    rewrite Hc, Hfetch. eexists. split; [reflexivity|].
    erewrite bind_Ok by reflexivity.
    erewrite bind_Ok by reflexivity.
    erewrite bind_Ok by reflexivity.
    erewrite for_each_app;
      [|by apply top_task_loop_Ok with (cur := tops1 ++ t :: tops2)].
    cbn [for_each].
    match goal with
    | |- ((?body ;;; _) ?st0).1 = _ =>
        pose proof (top_task_body_name_KeyError p t st0 _ g subs1 st subs2
                      eq_refl Hg Hsubs Hn Hst) as Hbody;
        unfold bind at 1; destruct (body st0) as [[[]|e] s1]
    end; cbn in *; [discriminate Hbody|done]. }
  rewrite Heq. unfold bind. destruct (m s) as [[[]|e] s1]; cbn in *;
    [discriminate Hm|by injection Hm as ->].
Qed.

(** ** [insert_or_replace], event by event *)

Lemma for_each_emit_trace {A} (xs : list A) (f : A → event) s :
  for_each xs (λ x, emit (f x)) s =
  (Ok tt, {| project_data_cache := project_data_cache s;
             task_cache := task_cache s;
             trace := trace s ++ map f xs |}).
Proof.
  revert s. induction xs as [|x xs IH]; intros s.
  - cbn. rewrite app_nil_r. by destruct s.
  - cbn [for_each map]. erewrite bind_Ok by reflexivity. rewrite IH.
    cbn. by rewrite <- app_assoc.
Qed.

Lemma imap_index_seq {A} (l : list A) : imap (λ i _, i) l = seq 0 (length l).
Proof.
  rewrite (imap_seq_0 l (λ i, i)). apply list_fmap_id.
Qed.

(** X9. What a call of [insert_or_replace] does, in order.  When the values
    are strings or falsy and the table name resolves: at most one metadata
    request (for the table name), the upsert statement, then one invocation
    of each indirect field, in declaration order (the call returns when the
    database and the indirect fields do).  When a truthy value is not a
    string, it raises [TypeError] before anything happens.  When the values
    are fine and the table name does not resolve, it raises what
    [table_name] raises after the metadata request alone: no statement is
    sent and no indirect field invoked. *)
Theorem insert_or_replace_statement_then_indirect_fields
    (p : Project) (t : task) s :
  (∀ tn,
     resolved_table_name p s = Some tn →
     values_ok (_direct_fields p) t = true →
     ∃ s', insert_or_replace p t s = (Ok tt, s') ∧
           trace s' =
             trace s
             ++ name_fetch_events p s
             ++ [DbWrite (upsert_statement p tn t).1
                         (upsert_statement p tn t).2]
             ++ map (λ i, IndirectField i t)
                    (seq 0 (length (_indirect_fields p))) ∧
           task_cache s' = task_cache s) ∧
  (values_ok (_direct_fields p) t = false →
   insert_or_replace p t s = (Raise TypeError, s)) ∧
  (values_ok (_direct_fields p) t = true →
   resolved_table_name p s = None →
   ∃ s', insert_or_replace p t s = (Raise (table_name_failure p s), s') ∧
         trace s' = trace s ++ name_fetch_events p s).
Proof.
  split; [|split].
  - intros tn Hres Hv. unfold insert_or_replace.
    rewrite set_command_loop_spec, Hv.
    erewrite bind_Ok by reflexivity.
    destruct (table_name_resolved_run p s tn Hres)
      as (s1 & Hrun1 & Ht1 & Htc1 & _).
    erewrite bind_Ok by exact Hrun1.
    erewrite bind_Ok by reflexivity.
    rewrite for_each_emit_trace. eexists. split; [reflexivity|].
    cbn [trace task_cache emit snd]. rewrite Ht1, imap_index_seq.
    split; [|done]. by rewrite <- !app_assoc.
  - apply values_ok_false_TypeError.
  - intros Hv Hres. unfold insert_or_replace.
    rewrite set_command_loop_spec, Hv.
    erewrite bind_Ok by reflexivity.
    destruct (table_name_unresolved_run p s Hres) as (s1 & Hrun1 & Ht1 & _).
    erewrite bind_Raise by exact Hrun1. by exists s1.
Qed.

(** ** Edge cases of [synchronize] *)

(** X10. With no direct field there is no identifier field:
    [db_task_ids], [delete] and [synchronize] raise [IndexError] at once,
    before any request, read or statement (the state is untouched).
    [insert_or_replace] does not look for it: there it sends an upsert with
    empty column, value and update lists. *)
Theorem no_direct_field_IndexError (p : Project) s :
  _direct_fields p = [] →
  db_task_ids p s = (Raise IndexError, s) ∧
  synchronize p s = (Raise IndexError, s) ∧
  (∀ id, delete p id s = (Raise IndexError, s)) ∧
  (∀ t tn, resolved_table_name p s = Some tn →
     ∃ s', insert_or_replace p t s = (Ok tt, s') ∧
           db_writes (trace s') =
             db_writes (trace s)
             ++ [(INSERT_OR_REPLACE_TEMPLATE tn EmptyString EmptyString
                    EmptyString, [])]).
Proof.
  intros Hf.
  assert (db_task_ids p s = (Raise IndexError, s)) as Hd.
  { unfold db_task_ids, _id_field. by rewrite Hf. }
  split; [done|]. split; [|split].
  - unfold synchronize. by erewrite bind_Raise by exact Hd.
  - intros id. unfold delete, _id_field. by rewrite Hf.
  - intros t tn Hres.
    destruct (insert_or_replace_Ok p t s tn Hres) as (s' & Hrun & Hw & _).
    { unfold values_ok. by rewrite Hf. }
    exists s'. split; [done|]. rewrite Hw. unfold upsert_statement.
    by rewrite Hf.
Qed.

(** X11. [synchronize] stops at the first task it cannot upsert: when the
    tasks before it go through and that task has a truthy value that is not
    a string, the run raises [TypeError] having sent the upserts of exactly
    the tasks before it and no delete, so the stored rows that are no
    longer in the project stay. *)
Theorem synchronize_stops_at_first_failing_task
    (p : Project) s tn id_field rest cells ts1 t ts2 :
  _direct_fields p = id_field :: rest →
  resolved_table_name p s = Some tn →
  first_cells (read (_db_client p)
                 (SELECT_TEMPLATE (sql_name id_field) tn)) = Ok cells →
  fetched_tasks p s = Some (ts1 ++ t :: ts2) →
  forallb (values_ok (_direct_fields p)) ts1 = true →
  values_ok (_direct_fields p) t = false →
  ∃ s', synchronize p s = (Raise TypeError, s') ∧
        db_writes (trace s') =
          db_writes (trace s) ++ map (upsert_statement p tn) ts1.
Proof.
  intros Hf Hres Hcells Hts Hok1 Hbad.
  destruct (db_task_ids_Ok p s tn _ _ _ Hf Hres Hcells)
    as (s1 & Hrun1 & Hev1 & Htc1 & Hres1).
  assert (fetched_tasks p s1 = Some (ts1 ++ t :: ts2)) as Hts1.
  { unfold fetched_tasks in *. by rewrite Htc1. }
  destruct (tasks_Ok p s1 _ Hts1) as (s2 & Hrun2 & Htc2 & Hpc2 & Hev2).
  assert (resolved_table_name p s2 = Some tn) as Hres2.
  { by rewrite (resolved_table_name_cache _ _ _ Hpc2). }
  destruct (insert_loop_Ok p ts1 s2 tn (or_intror Hres2) Hok1)
    as (s3 & Hrun3 & Hw3 & _).
  exists s3. unfold synchronize.
  erewrite bind_Ok by exact Hrun1.
  unfold asana_task_ids. erewrite bind_Ok.
  2:{ erewrite bind_Ok by exact Hrun2. reflexivity. }
  erewrite bind_Ok by (by apply tasks_cached).
  erewrite bind_Raise.
  2:{ erewrite for_each_app by exact Hrun3. cbn [for_each].
      erewrite bind_Raise by (by apply values_ok_false_TypeError).
      reflexivity. }
  split; [done|].
  by rewrite Hw3, (evolves_db_writes _ _ Hev2), (evolves_db_writes _ _ Hev1).
Qed.

(** X12. When the fetch brings no task at all, a run of [synchronize] that
    completes sends no upsert and deletes every stored identifier, each
    once: the table is emptied. *)
Theorem synchronize_empty_fetch_deletes_every_stored_id
    (p : Project) s tn id_field rest cells :
  _direct_fields p = id_field :: rest →
  resolved_table_name p s = Some tn →
  first_cells (read (_db_client p)
                 (SELECT_TEMPLATE (sql_name id_field) tn)) = Ok cells →
  fetched_tasks p s = Some [] →
  ∃ s' to_delete,
    synchronize p s = (Ok tt, s') ∧
    db_writes (trace s') =
      db_writes (trace s) ++ map (delete_statement tn id_field) to_delete ∧
    NoDup to_delete ∧
    ∀ id, id ∈ to_delete ↔ id ∈ cells.
Proof.
  intros Hf Hres Hcells Hts.
  destruct (synchronize_Ok p s tn id_field rest cells [] Hf Hres Hcells Hts
              eq_refl) as (s' & Hrun & Hw).
  exists s', (elements (list_to_set cells ∖ remote_ids [])).
  split; [done|]. split; [done|]. split; [apply NoDup_elements|].
  intros id. rewrite elem_of_elements, elem_of_difference.
  unfold remote_ids. cbn [map]. rewrite list_to_set_nil.
  rewrite elem_of_list_to_set. split; [by intros [? _]|].
  intros Hin. split; [done|]. apply not_elem_of_empty.
Qed.

(** X13. A completed [synchronize] is a completed [export] followed by the
    deletes: from the same state both complete, and the statements of
    [synchronize] are those of [export] and then one delete per stored
    identifier that is not remote.  When every stored identifier is remote
    (an empty table, for one), the two send the same statements. *)
Theorem synchronize_is_export_then_deletes
    (p : Project) s tn id_field rest cells ts :
  _direct_fields p = id_field :: rest →
  resolved_table_name p s = Some tn →
  first_cells (read (_db_client p)
                 (SELECT_TEMPLATE (sql_name id_field) tn)) = Ok cells →
  fetched_tasks p s = Some ts →
  forallb (values_ok (_direct_fields p)) ts = true →
  ∃ s_export s_sync,
    export p s = (Ok tt, s_export) ∧
    synchronize p s = (Ok tt, s_sync) ∧
    db_writes (trace s_sync) =
      db_writes (trace s_export)
      ++ map (delete_statement tn id_field)
           (elements (list_to_set cells ∖ remote_ids ts)) ∧
    ((∀ id, id ∈ cells → ∃ t, t ∈ ts ∧ dict_get t "gid" = id) →
     db_writes (trace s_sync) = db_writes (trace s_export)).
Proof.
  intros Hf Hres Hcells Hts Hok.
  destruct (export_Ok p s ts tn Hts (or_intror Hres) Hok)
    as (s_e & Hrun_e & Hw_e).
  destruct (synchronize_Ok p s tn id_field rest cells ts Hf Hres Hcells Hts
              Hok) as (s_s & Hrun_s & Hw_s).
  exists s_e, s_s. split; [done|]. split; [done|].
  assert (db_writes (trace s_s) =
          db_writes (trace s_e)
          ++ map (delete_statement tn id_field)
               (elements (list_to_set cells ∖ remote_ids ts))) as Hw.
  { by rewrite Hw_s, Hw_e, <- app_assoc. }
  split; [done|]. intros Hall. rewrite Hw.
  assert (list_to_set cells ∖ remote_ids ts = (∅ : gset pyval)) as ->.
  { apply set_eq. intros id. rewrite elem_of_difference, elem_of_list_to_set.
    split; [|set_solver]. intros [Hin Hnot]. exfalso. apply Hnot.
    destruct (Hall id Hin) as (t & Ht & Hg). unfold remote_ids.
    apply elem_of_list_to_set, list_elem_of_In, in_map_iff.
    exists t. split; [done|by apply list_elem_of_In]. }
  rewrite elements_empty. cbn [map]. by rewrite app_nil_r.
Qed.

(** ** Stored identifiers *)

Lemma first_cells_empty_row (rows : list row) :
  [] ∈ rows → first_cells rows = Raise IndexError.
Proof.
  induction rows as [|r rows IH]; [by intros ?%elem_of_nil|].
  intros Hin. cbn [first_cells]. destruct r as [|c r]; [done|].
  apply elem_of_cons in Hin as [Hin|Hin]; [done|]. by rewrite IH.
Qed.

Lemma first_cells_no_empty_row (rows : list row) :
  [] ∉ rows → first_cells rows = Ok (map (hd PNone) rows).
Proof.
  induction rows as [|r rows IH]; [done|].
  intros Hnin. cbn [first_cells map]. destruct r as [|c r].
  - exfalso. apply Hnin. by left.
  - rewrite IH; [done|]. intros Hin. apply Hnin. by right.
Qed.

(** X14. [db_task_ids] reads the identifier column with one query and keeps
    the first cell of every row: an identifier is in the result iff some
    row starts with it (further cells are ignored, repeated identifiers
    count once).  A row without cells makes it raise [IndexError], after
    the query. *)
Theorem db_task_ids_first_cells (p : Project) s tn id_field rest :
  _direct_fields p = id_field :: rest →
  resolved_table_name p s = Some tn →
  ([] ∈ read (_db_client p) (SELECT_TEMPLATE (sql_name id_field) tn) →
   ∃ s', db_task_ids p s = (Raise IndexError, s') ∧
         trace s' =
           trace s ++ name_fetch_events p s
           ++ [DbRead (SELECT_TEMPLATE (sql_name id_field) tn)]) ∧
  ([] ∉ read (_db_client p) (SELECT_TEMPLATE (sql_name id_field) tn) →
   ∃ s' ids,
     db_task_ids p s = (Ok ids, s') ∧
     trace s' =
       trace s ++ name_fetch_events p s
       ++ [DbRead (SELECT_TEMPLATE (sql_name id_field) tn)] ∧
     ∀ id, id ∈ ids ↔
           ∃ more, (id :: more)
                   ∈ read (_db_client p)
                       (SELECT_TEMPLATE (sql_name id_field) tn)).
Proof.
  intros Hf Hres.
  destruct (table_name_resolved_run p s tn Hres)
    as (s1 & Hrun1 & Ht1 & _).
  split; intros Hrows; unfold db_task_ids, _id_field; rewrite Hf;
    (erewrite bind_Ok by reflexivity);
    (erewrite bind_Ok by exact Hrun1);
    (erewrite bind_Ok by reflexivity).
  - rewrite (first_cells_empty_row _ Hrows). eexists.
    split; [reflexivity|]. cbn [emit snd trace]. by rewrite Ht1, <- app_assoc.
  - rewrite (first_cells_no_empty_row _ Hrows). eexists _, _.
    split; [reflexivity|]. cbn [emit snd trace].
    split; [by rewrite Ht1, <- app_assoc|].
    intros id. rewrite elem_of_list_to_set, list_elem_of_In, in_map_iff.
    split.
    + intros (r & Hhd & Hr). destruct r as [|c more].
      * exfalso. apply Hrows. by apply list_elem_of_In.
      * cbn in Hhd. subst c. exists more. by apply list_elem_of_In.
    + intros (more & Hin). exists (id :: more).
      split; [done|by apply list_elem_of_In].
Qed.

(** ** Failures, entry point by entry point *)

(** X15. When the table name does not resolve, [synchronize] raises what
    [table_name] raises right after the metadata request (if there is one
    to make): no query is run, no task is fetched and no statement is
    sent. *)
Theorem synchronize_unresolved_table_name_raises_first
    (p : Project) s id_field rest :
  _direct_fields p = id_field :: rest →
  resolved_table_name p s = None →
  ∃ s', synchronize p s = (Raise (table_name_failure p s), s') ∧
        trace s' = trace s ++ name_fetch_events p s ∧
        task_cache s' = task_cache s.
Proof.
  intros Hf Hres.
  destruct (table_name_unresolved_run p s Hres) as (s1 & Hrun1 & Ht1 & Htc1).
  exists s1. split; [|done]. unfold synchronize.
  erewrite bind_Raise; [done|]. unfold db_task_ids, _id_field. rewrite Hf.
  erewrite bind_Ok by reflexivity. by erewrite bind_Raise by exact Hrun1.
Qed.

(** X16. [export] stops at the first task it cannot upsert: when the tasks
    before it go through and that task has a truthy value that is not a
    string, the run raises [TypeError] having sent the upserts of exactly
    the tasks before it; the tasks after it are not touched. *)
Theorem export_stops_at_first_failing_task
    (p : Project) s ts1 t ts2 tn :
  fetched_tasks p s = Some (ts1 ++ t :: ts2) →
  ts1 = [] ∨ resolved_table_name p s = Some tn →
  forallb (values_ok (_direct_fields p)) ts1 = true →
  values_ok (_direct_fields p) t = false →
  ∃ s', export p s = (Raise TypeError, s') ∧
        db_writes (trace s') =
          db_writes (trace s) ++ map (upsert_statement p tn) ts1.
Proof.
  intros Hts Hres Hok1 Hbad.
  destruct (tasks_Ok p s _ Hts) as (s1 & Hrun1 & Htc1 & Hpc1 & Hev1).
  destruct (insert_loop_Ok p ts1 s1 tn) as (s2 & Hrun2 & Hw2 & _); [|done|].
  { destruct Hres as [|Hres]; [by left|right].
    by rewrite (resolved_table_name_cache _ _ _ Hpc1). }
  exists s2. unfold export. erewrite bind_Ok by exact Hrun1.
  erewrite for_each_app by exact Hrun2. cbn [for_each].
  erewrite bind_Raise by (by apply values_ok_false_TypeError).
  split; [done|]. by rewrite Hw2, (evolves_db_writes _ _ Hev1).
Qed.

(** X17. A failed access to the project metadata caches nothing: the cache
    is still empty afterwards, so the next access asks the service again,
    and gets the same outcome. *)
Theorem project_data_failure_is_not_cached (p : Project) s :
  project_data_cache s = None →
  (∀ d, find_by_id (_asana_client p) (_project_id p) ≠ ApiOk d) →
  ∃ e s1 s2,
    _project_data p s = (Raise e, s1) ∧
    project_data_cache s1 = None ∧
    _project_data p s1 = (Raise e, s2) ∧
    project_data_cache s2 = None ∧
    trace s2 =
      trace s ++ [ApiFindById (_project_id p); ApiFindById (_project_id p)].
Proof.
  intros Hc Hfail.
  assert (∀ s0, project_data_cache s0 = None →
            ∃ e, _project_data p s0 =
                 (Raise e,
                  {| project_data_cache := None;
                     task_cache := task_cache s0;
                     trace := trace s0 ++ [ApiFindById (_project_id p)] |}) ∧
                 ∀ s0', project_data_cache s0' = None →
                   (_project_data p s0').1 = Raise e) as Hone.
  { intros s0 Hc0. rewrite (project_data_first p s0 Hc0).
    destruct (find_by_id _ _) as [d| |msg] eqn:Hfind.
    - by destruct (Hfail d).
    - eexists. split; [done|]. intros s0' Hc0'.
      by rewrite (project_data_first p s0' Hc0'), Hfind.
    - eexists. split; [done|]. intros s0' Hc0'.
      by rewrite (project_data_first p s0' Hc0'), Hfind. }
  destruct (Hone s Hc) as (e & Hrun1 & Hsame).
  destruct (Hone _ (eq_refl : project_data_cache
             {| project_data_cache := None; task_cache := task_cache s;
                trace := trace s ++ [ApiFindById (_project_id p)] |} = None))
    as (e' & Hrun2 & _).
  assert (e' = e) as ->.
  { specialize (Hsame _ (eq_refl : project_data_cache
             {| project_data_cache := None; task_cache := task_cache s;
                trace := trace s ++ [ApiFindById (_project_id p)] |} = None)).
    rewrite Hrun2 in Hsame. by injection Hsame. }
  eexists e, _, _. split; [exact Hrun1|]. split; [done|].
  split; [exact Hrun2|]. split; [done|]. cbn. by rewrite <- app_assoc.
Qed.

(** ** The counting client *)

(** X18. [RequestCountingClient] counts every request handed to it, the
    failing ones included: after any series of requests [num_requests] has
    grown by their number.  It prints one line [method: path] per request,
    in order, when [dump_api] is set, and nothing otherwise. *)
Theorem requests_counts_every_request {A} (c : RequestCountingClient)
    (calls : list (string * string * result A)) :
  num_requests (requests c calls).1
    = num_requests c + Z.of_nat (length calls) ∧
  _dump_api (requests c calls).1 = _dump_api c ∧
  (requests c calls).2 =
    if _dump_api c
    then map (λ call : string * string * result A,
                call.1.1 +:+ ": " +:+ call.1.2) calls
    else [].
Proof.
  revert c. induction calls as [|[[method path] parent] calls IH]; intros c.
  - cbn. split; [unfold num_requests; lia|]. by destruct (_dump_api c).
  - cbn [requests request].
    destruct (IH {| _dump_api := _dump_api c;
                    _num_requests := _num_requests c + 1 |})
      as (Hn & Hd & Hout).
    destruct (requests _ calls) as [c'' out'] eqn:Hreq. cbn in *.
    split; [unfold num_requests in *; cbn in *; lia|]. split; [done|].
    rewrite Hout. by destruct (_dump_api c).
Qed.

(** X19. The client [build_asana_client] makes starts at zero requests and
    echoes requests exactly when [dump_api] was asked for.
    [Client.__init__] receives the session, [auth] as [None], [base_url]
    only when it is not empty, [verify] whenever it is given, and nothing
    else: [dump_api] is never passed on. *)
Theorem build_asana_client_options (a : client_args) :
  num_requests (build_asana_client a).1 = 0 ∧
  _dump_api (build_asana_client a).1 = args_dump_api a ∧
  (build_asana_client a).2 !! "session"
    = Some (OptSession (args_access_token a)) ∧
  (build_asana_client a).2 !! "auth" = Some OptNone ∧
  (build_asana_client a).2 !! "base_url"
    = (if truthy_str (args_base_url a)
       then Some (OptStr (args_base_url a)) else None) ∧
  (build_asana_client a).2 !! "verify" = OptBool <$> args_verify a ∧
  (build_asana_client a).2 !! "dump_api" = None ∧
  ∀ k, is_Some ((build_asana_client a).2 !! k) →
       k = "session" ∨ k = "auth" ∨ k = "base_url" ∨ k = "verify".
Proof.
  unfold build_asana_client, new_RequestCountingClient, build_options.
  cbn [fst snd num_requests _num_requests _dump_api].
  destruct (args_dump_api a), (args_verify a) as [v|],
    (truthy_str (args_base_url a)); cbn [fmap option_fmap option_map];
    (split; [done|]); (split; [by simplify_map_eq|]);
    (split; [by simplify_map_eq|]); (split; [by simplify_map_eq|]);
    (split; [by simplify_map_eq|]); (split; [by simplify_map_eq|]);
    (split; [by simplify_map_eq|]);
    intros k [x Hk];
    destruct (decide (k = "session")) as [|H1]; try (by left);
    destruct (decide (k = "auth")) as [|H0]; try (by right; left);
    destruct (decide (k = "base_url")) as [|H2]; try (by right; right; left);
    destruct (decide (k = "verify")) as [|H3];
    try (by right; right; right);
    destruct (decide (k = "dump_api")) as [->|H4];
    exfalso; by simplify_map_eq.
Qed.

(** ** The command line *)

Lemma Forall_before_commit_Engine (evs : list event) :
  Forall before_commit (map Engine evs).
Proof. induction evs; constructor; done. Qed.

Lemma main_setup_before_commit (a : main_args) :
  Forall before_commit (main_setup a).
Proof.
  unfold main_setup. apply Forall_app. split.
  - destruct (truthy_str _); repeat constructor.
  - repeat constructor.
Qed.

Lemma run_command_before_commit (a : main_args) (p : Project) :
  Forall before_commit (run_command a p).2.
Proof.
  unfold run_command.
  destruct (String.eqb (main_command a) "create").
  { destruct ((emit _ ;;; create_table p) initial_state) as [[[]|e] s];
      cbn [snd]; [|apply Forall_before_commit_Engine].
    apply Forall_app. split; [apply Forall_before_commit_Engine|].
    repeat constructor. }
  destruct (String.eqb (main_command a) "export").
  { destruct (export p initial_state) as [r s].
    apply Forall_before_commit_Engine. }
  destruct (String.eqb (main_command a) "synchronize").
  { destruct (synchronize p initial_state) as [r s].
    apply Forall_before_commit_Engine. }
  constructor.
Qed.

Lemma before_commit_not_elem (evs : list main_event) :
  Forall before_commit evs → (Commit ∉ evs) ∧ (PerfReport ∉ evs).
Proof.
  rewrite Forall_forall. intros H. split; intros Hin; exact (H _ Hin).
Qed.

Lemma truthy_str_false (x : string) :
  truthy_str x = false ↔ x = EmptyString.
Proof. by destruct x. Qed.

(** X20. [main] commits only after its command has run to the end, and
    only on a run that is not dry and has a database connection; the commit
    is then the last thing it does but for the performance report.  An
    exception of the command leaves [main] at once, with neither commit nor
    report.  A run that is not dry and was given no connection string ends
    in an AttributeError, after the command has run. *)
Theorem main_commits_only_after_a_completed_command (a : main_args)
    (client : asana_client) (db : db_client) (fields : list field) :
  let command := run_command a (main_project a client db fields) in
  let outcome := (main a client db fields).1 in
  let evs := (main a client db fields).2 in
  (Commit ∈ evs ↔
     command.1 = Ok tt ∧ main_dry a = false ∧
     main_odbc_string a ≠ EmptyString) ∧
  (Commit ∈ evs →
     evs = main_setup a ++ command.2 ++ [Commit]
             ++ (if main_dump_perf a then [PerfReport] else []) ∧
     (Commit ∉ main_setup a ++ command.2)) ∧
  (∀ e, command.1 = Raise e ↔ outcome = Some (EngineError e)) ∧
  (∀ e, command.1 = Raise e →
        evs = main_setup a ++ command.2 ∧
        (Commit ∉ evs) ∧ (PerfReport ∉ evs)) ∧
  (outcome = Some AttributeError ↔
     command.1 = Ok tt ∧ main_dry a = false ∧
     main_odbc_string a = EmptyString) ∧
  (PerfReport ∈ evs → outcome = None ∧ main_dump_perf a = true).
Proof.
  intros command outcome evs.
  assert (Forall before_commit (main_setup a ++ command.2)) as Hbefore.
  { apply Forall_app. split;
      [apply main_setup_before_commit|apply run_command_before_commit]. }
  destruct (before_commit_not_elem _ Hbefore) as [HnoC HnoP].
  pose proof (truthy_str_false (main_odbc_string a)) as Hodbc.
  rewrite elem_of_app in HnoC, HnoP.
  subst outcome evs. unfold main. fold command.
  clear Hbefore. revert HnoC HnoP. generalize (main_setup a) as setup.
  intros setup HnoC HnoP.
  destruct command as [[[]|e] cevs]; cbn [fst snd] in *;
    [destruct (main_dry a);
     [|destruct (truthy_str (main_odbc_string a))]|];
    destruct (main_dump_perf a); cbn [fst snd];
    repeat setoid_rewrite elem_of_app;
    repeat setoid_rewrite elem_of_cons;
    repeat setoid_rewrite elem_of_nil;
    intuition (try congruence; try discriminate).
Qed.

Lemma not_write_never_delete e : not_write e → never_delete e.
Proof. by destruct e. Qed.

Lemma no_delete_never_delete e : no_delete e → never_delete e.
Proof. destruct e; try done. apply upsert_not_delete. Qed.

Lemma create_not_delete tn columns :
  ¬ is_delete (CREATE_TABLE_TEMPLATE tn columns).
Proof. intros (? & ? & H). discriminate H. Qed.

Lemma respects_create_table p :
  respects (evolves never_delete) (create_table p).
Proof.
  unfold create_table.
  apply respects_bind; try apply _; [by apply respects_emit|].
  intros _. apply respects_bind; try apply _;
    [by apply respects_table_name|].
  intros tn. apply respects_bind; try apply _; [by apply respects_emit|].
  intros _. apply respects_bind; try apply _;
    [by apply respects_table_name|].
  intros tn'. apply respects_bind; try apply _; [by apply respects_emit|].
  intros _. apply respects_bind; try apply _; [by apply respects_emit|].
  intros _. apply respects_emit. apply create_not_delete.
Qed.

Lemma evolves_never_delete (P : event → Prop) s' sql params :
  (∀ e, P e → never_delete e) →
  evolves P initial_state s' →
  Engine (DbWrite sql params) ∈ map Engine (trace s') → ¬ is_delete sql.
Proof.
  intros HP [(evs & Ht & HF) _] Hin. rewrite Ht in Hin. cbn in Hin.
  apply list_elem_of_fmap in Hin as (e & [= <-] & Hin).
  rewrite Forall_forall in HF. exact (HP _ (HF _ Hin)).
Qed.

Lemma run_command_never_delete (a : main_args) (p : Project) sql params :
  Engine (DbWrite sql params) ∈ (run_command a p).2 → is_delete sql →
  main_command a = "synchronize".
Proof.
  unfold run_command.
  destruct (String.eqb (main_command a) "create").
  { pose proof (respects_bind (evolves never_delete)
                  (emit (Print (PStr "create...")))
                  (λ _, create_table p)
                  (respects_emit never_delete (Print (PStr "create...")) I)
                  (λ _, respects_create_table p) initial_state) as Hev.
    destruct ((emit _ ;;; create_table p) initial_state) as [[[]|e] s];
      cbn [fst snd] in *; intros Hin Hdel; exfalso.
    - apply elem_of_app in Hin as [Hin|Hin];
        [|by apply list_elem_of_singleton in Hin].
      by eapply (evolves_never_delete never_delete).
    - by eapply (evolves_never_delete never_delete). }
  destruct (String.eqb (main_command a) "export").
  { pose proof (respects_export p initial_state) as Hev.
    destruct (export p initial_state) as [r s]; cbn [fst snd] in *.
    intros Hin Hdel; exfalso.
    eapply (evolves_never_delete no_delete);
      [apply no_delete_never_delete|done..]. }
  destruct (String.eqb (main_command a) "synchronize") eqn:Hcmd.
  { by apply String.eqb_eq in Hcmd. }
  cbn. by intros Hin%elem_of_nil.
Qed.

(** X21. Whatever the command and however the run ends, [main] has the
    engine send a delete statement under the synchronize command only: the
    create and export commands send none. *)
Theorem main_deletes_only_under_synchronize (a : main_args)
    (client : asana_client) (db : db_client) (fields : list field)
    sql params :
  Engine (DbWrite sql params) ∈ (main a client db fields).2 →
  is_delete sql →
  main_command a = "synchronize".
Proof.
  intros Hin Hdel.
  apply (run_command_never_delete a (main_project a client db fields)
           sql params); [|done].
  revert Hin. unfold main.
  assert (Engine (DbWrite sql params) ∉ main_setup a) as Hsetup.
  { unfold main_setup. rewrite elem_of_app.
    destruct (truthy_str _); intros [Hin|Hin];
      repeat (apply elem_of_cons in Hin as [Hin|Hin]; [done|]);
      by apply elem_of_nil in Hin. }
  revert Hsetup. generalize (main_setup a) as setup. intros setup Hsetup.
  destruct (run_command _ _) as [[[]|e] cevs]; cbn [fst snd];
    [destruct (main_dry a); [|destruct (truthy_str (main_odbc_string a))]|];
    destruct (main_dump_perf a); cbn [fst snd];
    rewrite ?elem_of_app, ?elem_of_cons, ?elem_of_nil;
    intuition congruence.
Qed.

End WithUtil.

(** * Concrete runs *)

(** Project 8 is unknown to the service: the first access raises. *)
Lemma project_data_first_access_example :
  (∀ id, (_project_data project_missing initial_state).1
           = Raise (NoSuchProjectException id) ↔
         id = 8 ∧ find_by_id client234 8 = ApiNotFound) ∧
  (∀ d, find_by_id client234 8 = ApiOk d →
     ∃ s1, _project_data project_missing initial_state = (Ok d, s1) ∧
           project_data_cache s1 = Some d ∧
           trace s1 = trace initial_state ++ [ApiFindById 8] ∧
           ∀ s2, project_data_cache s2 = Some d →
                 _project_data project_missing s2 = (Ok d, s2)) ∧
  (∀ d s1, _project_data project_missing initial_state = (Ok d, s1) →
     find_by_id client234 8 = ApiOk d).
Proof.
  apply (project_data_not_found_iff_cached_on_success
           project_missing initial_state).
  reflexivity.
Defined.

(** The scenario of the specification: identifiers 1, 2 and 3 are stored,
    tasks 2, 3 and 4 are fetched.  Tasks 2, 3 and 4 are upserted, 1 alone is
    deleted; read as SQL over a table that holds rows 1, 2 and 3, rows 2 and
    3 are updated where they are and row 4 is inserted. *)
Lemma synchronize_stored_123_fetched_234 :
  (∃ s' to_delete,
     synchronize sql_safe_name_model project234 initial_state = (Ok tt, s') ∧
     db_writes (trace s') =
       db_writes (trace initial_state)
       ++ map (upsert_statement project234 "tasks") [task2; task3; task4]
       ++ map (delete_statement "tasks" gid_field) to_delete ∧
     NoDup to_delete ∧
     ∀ id, id ∈ to_delete ↔
           id ∈ [PStr "1"; PStr "2"; PStr "3"] ∧
           ¬ ∃ t, t ∈ [task2; task3; task4] ∧ dict_get t "gid" = id) ∧
  db_writes
    (trace (synchronize sql_safe_name_model project234 initial_state).2) =
    map (statement_sql "tasks")
      [Upsert ["gid"; "name"] [PStr "2"; PStr "two"]
              [("gid", "2"); ("name", "two")];
       Upsert ["gid"; "name"] [PStr "3"; PStr "three"]
              [("gid", "3"); ("name", "three")];
       Upsert ["gid"; "name"] [PStr "4"; PStr "four"]
              [("gid", "4"); ("name", "four")];
       Delete "gid" (PStr "1")] ∧
  exec_all [mk_task "1" "one"; mk_task "2" "old two"; mk_task "3" "three"]
    [Upsert ["gid"; "name"] [PStr "2"; PStr "two"]
            [("gid", "2"); ("name", "two")];
     Upsert ["gid"; "name"] [PStr "3"; PStr "three"]
            [("gid", "3"); ("name", "three")];
     Upsert ["gid"; "name"] [PStr "4"; PStr "four"]
            [("gid", "4"); ("name", "four")];
     Delete "gid" (PStr "1")] =
    [task2; task3; task4].
Proof.
  split; [|split; vm_compute; reflexivity].
  apply (synchronize_upserts_all_deletes_difference sql_safe_name_model
           project234 initial_state "tasks" gid_field [name_field]
           [PStr "1"; PStr "2"; PStr "3"] [task2; task3; task4]);
    vm_compute; reflexivity.
Defined.

Lemma synchronize_never_deletes_fetched_example :
  ∃ s' writes,
    synchronize sql_safe_name_model project234 initial_state = (Ok tt, s') ∧
    db_writes (trace s') = db_writes (trace initial_state) ++ writes ∧
    ∀ sql params id,
      (sql, params) ∈ writes → is_delete sql → id ∈ params →
      ¬ ∃ t, t ∈ [task2; task3; task4] ∧ dict_get t "gid" = id.
Proof.
  apply (proj2 (synchronize_upserts_before_deletes sql_safe_name_model
                  project234 initial_state)
           "tasks" gid_field [name_field]
           [PStr "1"; PStr "2"; PStr "3"] [task2; task3; task4]);
    vm_compute; reflexivity.
Defined.

(** C3. The first direct field has column [id]: the identifiers are read
    from column [id] and deleted by column [id], but the upsert's conflict
    target is still [gid], the literal of the template, as it is in every
    statement built from the template. *)
Theorem conflict_target_is_gid_not_the_id_field :
  _id_field project_id_column initial_state = (Ok id_field, initial_state) ∧
  sql_name id_field = "id" ∧
  DbRead (SELECT_TEMPLATE "id" "tasks")
    ∈ trace (synchronize sql_safe_name_model project_id_column
               initial_state).2 ∧
  db_writes
    (trace (synchronize sql_safe_name_model project_id_column
              initial_state).2) =
    [(INSERT_OR_REPLACE_TEMPLATE "tasks" "id,name" "?,?"
        " id = '2',  name = 'two'", [PStr "2"; PStr "two"]);
     (INSERT_OR_REPLACE_TEMPLATE "tasks" "id,name" "?,?"
        " id = '3',  name = 'three'", [PStr "3"; PStr "three"]);
     (INSERT_OR_REPLACE_TEMPLATE "tasks" "id,name" "?,?"
        " id = '4',  name = 'four'", [PStr "4"; PStr "four"]);
     (DELETE_TEMPLATE "tasks" "id", [PStr "1"])] ∧
  (∀ tn columns values set_command,
     ∃ before,
       INSERT_OR_REPLACE_TEMPLATE tn columns values set_command =
       before +:+ ") ON CONFLICT (gid) DO UPDATE SET " +:+ set_command +:+ ";").
Proof.
  split; [reflexivity|]. split; [reflexivity|]. split.
  - vm_compute. apply list_elem_of_here.
  - split; [vm_compute; reflexivity|].
    intros tn columns values set_command.
    exists ("INSERT INTO " +:+ dquote +:+ tn +:+ dquote +:+ " (" +:+ columns
            +:+ ") VALUES (" +:+ values).
    unfold INSERT_OR_REPLACE_TEMPLATE. by rewrite !append_assoc.
Qed.


(** Task 2 has no notes and a name with a single quote in it: the
    update-set text of its upsert assigns [NULL] to column [notes]. *)
Lemma absent_notes_set_to_null_by_quoted_name :
  get_data_from_task notes_field task2_quoted = PNone ∧
  notes_field ∈ _direct_fields project_name_notes ∧
  db_writes
    (trace (insert_or_replace sql_safe_name_model project_name_notes
              task2_quoted initial_state).2) =
    [(INSERT_OR_REPLACE_TEMPLATE "tasks" "gid,name,notes" "?,?,?"
        " gid = '2',  name = 'x', notes = NULL --'",
      [PStr "2"; PStr "x', notes = NULL --"; PNone])] ∧
  read_set_clause " gid = '2',  name = 'x', notes = NULL --'" =
    Some [("gid", SqlString "2"); ("name", SqlString "x");
          ("notes", SqlNull)].
Proof.
  split; [reflexivity|]. split; [|split; vm_compute; reflexivity].
  apply list_elem_of_further, list_elem_of_further, list_elem_of_here.
Qed.


(** The configured table name [my table] is not what [table_name] returns:
    it returns the sanitized name. *)
Lemma configured_table_name_is_sanitized :
  _table_name project234_spaced = "my table" ∧
  table_name sql_safe_name_model project234_spaced initial_state
    = (Ok "my_table", initial_state).
Proof. split; vm_compute; reflexivity. Qed.

(** With [tasks] configured nothing is fetched; with no name configured the
    project, called [My Project], is fetched and its name sanitized. *)
Lemma configured_table_name_example :
  table_name sql_safe_name_model project234 initial_state
    = (Ok (sql_safe_name_model "tasks"), initial_state) ∧
  sql_safe_name_model "tasks" = "tasks" ∧
  (table_name sql_safe_name_model project234_unnamed initial_state).1
    = Ok "My_Project" ∧
  trace (table_name sql_safe_name_model project234_unnamed initial_state).2
    = [ApiFindById 7].
Proof.
  split; [|repeat split; vm_compute; reflexivity].
  apply (proj1 (table_name_sanitizes_configured_or_project_name
                  sql_safe_name_model project234 initial_state)).
  reflexivity.
Defined.

(** A top-level task with one sub-task gives two records, each upserted. *)
Lemma parent_with_one_subtask_gives_two_records :
  (∃ s',
     _tasks project_parent_child initial_state =
       (Ok ([parent_task]
            ++ flat_map (sub_tasks_of project_parent_child) [parent_task]),
        s') ∧
     task_cache s' =
       Some ([parent_task]
             ++ flat_map (sub_tasks_of project_parent_child) [parent_task]) ∧
     trace s' =
       trace initial_state
       ++ [ApiFindByProject (_project_id project_parent_child)
             (fields_arg project_parent_child);
           ApiFindByProject (_project_id project_parent_child)
             (fields_arg project_parent_child)]
       ++ flat_map (λ t,
            ApiSubtasks (dict_get t "gid") (fields_arg project_parent_child)
              :: map (λ st, Print (dict_get st "name"))
                   (sub_tasks_of project_parent_child t))
            [parent_task] ∧
     asana_task_ids project_parent_child s' =
       (Ok (remote_ids
              ([parent_task]
               ++ flat_map (sub_tasks_of project_parent_child)
                    [parent_task])), s') ∧
     ∀ t st, t ∈ [parent_task] → st ∈ sub_tasks_of project_parent_child t →
             st ∈ [parent_task]
                  ++ flat_map (sub_tasks_of project_parent_child)
                       [parent_task] ∧
             dict_get st "gid"
               ∈ remote_ids
                   ([parent_task]
                    ++ flat_map (sub_tasks_of project_parent_child)
                         [parent_task])) ∧
  (_tasks project_parent_child initial_state).1
    = Ok [parent_task; child_task] ∧
  db_writes
    (trace (export sql_safe_name_model project_parent_child
              initial_state).2) =
    [upsert_statement project_parent_child "tasks" parent_task;
     upsert_statement project_parent_child "tasks" child_task].
Proof.
  split; [|split; vm_compute; reflexivity].
  apply (tasks_flattens_subtasks project_parent_child initial_state
           [parent_task]); vm_compute; reflexivity.
Defined.

Lemma export_parent_child_example :
  ∃ s', export sql_safe_name_model project_parent_child initial_state
          = (Ok tt, s') ∧
        db_writes (trace s') =
          db_writes (trace initial_state)
          ++ map (statement_sql "tasks")
               (map (upsert_of project_parent_child)
                  [parent_task; child_task]) ∧
        ∀ tbl (r : gmap string pyval),
          r ∈ tbl →
          (∀ t, t ∈ [parent_task; child_task] →
                row_of_task project_parent_child t !! "gid" ≠ r !! "gid") →
          r ∈ exec_all tbl
                (map (upsert_of project_parent_child)
                   [parent_task; child_task]).
Proof.
  apply (proj2 (export_upserts_each_task_never_deletes sql_safe_name_model
                  project_parent_child initial_state)
           [parent_task; child_task] "tasks").
  - vm_compute; reflexivity.
  - right. vm_compute; reflexivity.
  - vm_compute; reflexivity.
Defined.


(** A top-level record without ["gid"]: the first [asana_task_ids], and with
    it [synchronize], raises [KeyError]. *)
Lemma top_level_task_without_gid_raises_KeyError :
  find_by_project client_no_gid 7 (fields_arg project_no_gid)
    = ApiOk [nameless_gid_task] ∧
  nameless_gid_task !! "gid" = None ∧
  (asana_task_ids project_no_gid initial_state).1 = Raise (KeyError "gid") ∧
  (synchronize sql_safe_name_model project_no_gid initial_state).1
    = Raise (KeyError "gid").
Proof. repeat split; vm_compute; reflexivity. Qed.

Lemma asana_task_ids_first_fetch_example :
  ∃ s', asana_task_ids project_parent_child initial_state =
          (Ok (remote_ids
                 ([parent_task]
                  ++ flat_map (sub_tasks_of project_parent_child)
                       [parent_task])), s').
Proof.
  apply (proj1 (proj2 (asana_task_ids_none_for_missing_gid
                         project_parent_child initial_state)) [parent_task]);
    vm_compute; reflexivity.
Defined.

(** * Concrete runs of the further properties *)

(** No table name is configured: the project is fetched once, and the
    statement creates table [My_Project] with columns [gid] and [name]. *)
Lemma create_table_example :
  ∃ s', create_table sql_safe_name_model text_column_sql project234_unnamed
          initial_state = (Ok tt, s') ∧
        trace s' =
          trace initial_state
          ++ [Print (PStr "create_table...")]
          ++ name_fetch_events project234_unnamed initial_state
          ++ [Print (PStr "My_Project");
              Print (PStr "db write sql:");
              Print (PStr (CREATE_TABLE_TEMPLATE "My_Project"
                             (join "," (map text_column_sql
                                          (_direct_fields
                                             project234_unnamed)))));
              DbWrite (CREATE_TABLE_TEMPLATE "My_Project"
                         (join "," (map text_column_sql
                                      (_direct_fields project234_unnamed))))
                      []] ∧
        task_cache s' = task_cache initial_state.
Proof.
  apply (create_table_sends_one_statement sql_safe_name_model
           text_column_sql project234_unnamed initial_state "My_Project").
  vm_compute; reflexivity.
Defined.

Lemma create_table_unknown_project_example :
  ∃ s', create_table sql_safe_name_model text_column_sql project_missing
          initial_state
        = (Raise (table_name_failure project_missing initial_state), s') ∧
        trace s' =
          trace initial_state ++ [Print (PStr "create_table...")]
          ++ name_fetch_events project_missing initial_state ∧
        db_writes (trace s') = db_writes (trace initial_state).
Proof.
  apply (create_table_fails_before_any_statement sql_safe_name_model
           text_column_sql project_missing initial_state).
  vm_compute; reflexivity.
Defined.

Lemma tasks_cached_example :
  task_cache (_tasks project234 initial_state).2
    = Some [task2; task3; task4] ∧
  ∀ s'', task_cache s'' = Some [task2; task3; task4] →
         _tasks project234 s'' = (Ok [task2; task3; task4], s'').
Proof.
  apply (tasks_returns_and_keeps_the_cache project234 initial_state).
  vm_compute; reflexivity.
Defined.

(** The record without ["gid"]: the first call raises, the second returns
    the record. *)
Lemma tasks_partial_cache_example :
  ∃ more,
    task_cache (_tasks project_no_gid initial_state).2
      = Some ([nameless_gid_task] ++ more) ∧
    _tasks project_no_gid (_tasks project_no_gid initial_state).2
      = (Ok ([nameless_gid_task] ++ more),
         (_tasks project_no_gid initial_state).2).
Proof.
  apply (tasks_failure_leaves_partial_cache project_no_gid initial_state
           [nameless_gid_task] (KeyError "gid"));
    vm_compute; reflexivity.
Defined.

Lemma tasks_fetch_failure_example :
  (find_by_project (_asana_client project_missing)
     (_project_id project_missing) (fields_arg project_missing)
     = ApiNotFound →
   _tasks project_missing initial_state =
   (Raise NotFoundError,
    {| project_data_cache := project_data_cache initial_state;
       task_cache := None;
       trace := trace initial_state
                ++ [ApiFindByProject (_project_id project_missing)
                      (fields_arg project_missing)] |})) ∧
  (∀ msg,
     find_by_project (_asana_client project_missing)
       (_project_id project_missing) (fields_arg project_missing)
       = ApiError msg →
     _tasks project_missing initial_state =
     (Raise (AsanaError msg),
      {| project_data_cache := project_data_cache initial_state;
         task_cache := None;
         trace := trace initial_state
                  ++ [ApiFindByProject (_project_id project_missing)
                        (fields_arg project_missing)] |})).
Proof.
  apply (tasks_fetch_failure_is_not_cached project_missing initial_state).
  reflexivity.
Defined.

(** Only [gid] is configured, yet the sub-task must have a ["name"]. *)
Lemma tasks_unnamed_subtask_example :
  fields_arg project_unnamed_child = "gid" ∧
  (_tasks project_unnamed_child initial_state).1 = Raise (KeyError "name").
Proof.
  split; [vm_compute; reflexivity|].
  apply (tasks_subtask_without_name_raises project_unnamed_child
           initial_state [] parent_task [] (PStr "10")
           [] unnamed_child_task []); vm_compute; reflexivity.
Defined.

(** Task 2 of project 7, whose one indirect field is the followers field:
    the upsert is sent first, then the field is invoked. *)
Lemma insert_or_replace_order_example :
  ∃ s', insert_or_replace sql_safe_name_model project234 task2
          initial_state = (Ok tt, s') ∧
        trace s' =
          trace initial_state
          ++ name_fetch_events project234 initial_state
          ++ [DbWrite (upsert_statement project234 "tasks" task2).1
                      (upsert_statement project234 "tasks" task2).2]
          ++ map (λ i, IndirectField i task2)
                 (seq 0 (length (_indirect_fields project234))) ∧
        task_cache s' = task_cache initial_state.
Proof.
  apply (proj1 (insert_or_replace_statement_then_indirect_fields
                  sql_safe_name_model project234 task2 initial_state)
           "tasks"); vm_compute; reflexivity.
Defined.

Lemma no_direct_field_example :
  db_task_ids sql_safe_name_model project_no_column initial_state
    = (Raise IndexError, initial_state) ∧
  synchronize sql_safe_name_model project_no_column initial_state
    = (Raise IndexError, initial_state) ∧
  (∀ id, delete sql_safe_name_model project_no_column id initial_state
         = (Raise IndexError, initial_state)) ∧
  (∀ t tn,
     resolved_table_name sql_safe_name_model project_no_column initial_state
       = Some tn →
     ∃ s', insert_or_replace sql_safe_name_model project_no_column t
             initial_state = (Ok tt, s') ∧
           db_writes (trace s') =
             db_writes (trace initial_state)
             ++ [(INSERT_OR_REPLACE_TEMPLATE tn EmptyString EmptyString
                    EmptyString, [])]).
Proof.
  apply (no_direct_field_IndexError sql_safe_name_model project_no_column
           initial_state).
  reflexivity.
Defined.

(** Task 3 has an [int] among its values: task 2 is upserted, then the run
    raises, and nothing is deleted although identifier 1 is stored only. *)
Lemma synchronize_stops_example :
  ∃ s', synchronize sql_safe_name_model project_liked initial_state
          = (Raise TypeError, s') ∧
        db_writes (trace s') =
          db_writes (trace initial_state)
          ++ map (upsert_statement project_liked "tasks") [task2].
Proof.
  apply (synchronize_stops_at_first_failing_task sql_safe_name_model
           project_liked initial_state "tasks" gid_field [likes_field]
           [PStr "1"; PStr "2"; PStr "3"] [task2] task3_liked [task4]);
    vm_compute; reflexivity.
Defined.

Lemma synchronize_empty_fetch_example :
  ∃ s' to_delete,
    synchronize sql_safe_name_model project_empty initial_state
      = (Ok tt, s') ∧
    db_writes (trace s') =
      db_writes (trace initial_state)
      ++ map (delete_statement "tasks" gid_field) to_delete ∧
    NoDup to_delete ∧
    ∀ id, id ∈ to_delete ↔ id ∈ [PStr "1"; PStr "2"; PStr "3"].
Proof.
  apply (synchronize_empty_fetch_deletes_every_stored_id sql_safe_name_model
           project_empty initial_state "tasks" gid_field [name_field]
           [PStr "1"; PStr "2"; PStr "3"]); vm_compute; reflexivity.
Defined.

Lemma synchronize_is_export_then_deletes_example :
  ∃ s_export s_sync,
    export sql_safe_name_model project234 initial_state
      = (Ok tt, s_export) ∧
    synchronize sql_safe_name_model project234 initial_state
      = (Ok tt, s_sync) ∧
    db_writes (trace s_sync) =
      db_writes (trace s_export)
      ++ map (delete_statement "tasks" gid_field)
           (elements (list_to_set [PStr "1"; PStr "2"; PStr "3"]
                      ∖ remote_ids [task2; task3; task4])) ∧
    ((∀ id, id ∈ [PStr "1"; PStr "2"; PStr "3"] →
            ∃ t, t ∈ [task2; task3; task4] ∧ dict_get t "gid" = id) →
     db_writes (trace s_sync) = db_writes (trace s_export)).
Proof.
  apply (synchronize_is_export_then_deletes sql_safe_name_model project234
           initial_state "tasks" gid_field [name_field]
           [PStr "1"; PStr "2"; PStr "3"] [task2; task3; task4]);
    vm_compute; reflexivity.
Defined.

Lemma db_task_ids_example :
  ([] ∈ read (_db_client project234)
          (SELECT_TEMPLATE (sql_name gid_field) "tasks") →
   ∃ s', db_task_ids sql_safe_name_model project234 initial_state
           = (Raise IndexError, s') ∧
         trace s' =
           trace initial_state
           ++ name_fetch_events project234 initial_state
           ++ [DbRead (SELECT_TEMPLATE (sql_name gid_field) "tasks")]) ∧
  ([] ∉ read (_db_client project234)
          (SELECT_TEMPLATE (sql_name gid_field) "tasks") →
   ∃ s' ids,
     db_task_ids sql_safe_name_model project234 initial_state
       = (Ok ids, s') ∧
     trace s' =
       trace initial_state
       ++ name_fetch_events project234 initial_state
       ++ [DbRead (SELECT_TEMPLATE (sql_name gid_field) "tasks")] ∧
     ∀ id, id ∈ ids ↔
           ∃ more, (id :: more)
                   ∈ read (_db_client project234)
                       (SELECT_TEMPLATE (sql_name gid_field) "tasks")).
Proof.
  apply (db_task_ids_first_cells sql_safe_name_model project234
           initial_state "tasks" gid_field [name_field]);
    vm_compute; reflexivity.
Defined.

Lemma synchronize_unknown_project_example :
  ∃ s', synchronize sql_safe_name_model project_missing initial_state
        = (Raise (table_name_failure project_missing initial_state), s') ∧
        trace s' =
          trace initial_state
          ++ name_fetch_events project_missing initial_state ∧
        task_cache s' = task_cache initial_state.
Proof.
  apply (synchronize_unresolved_table_name_raises_first sql_safe_name_model
           project_missing initial_state gid_field [name_field]);
    vm_compute; reflexivity.
Defined.

Lemma export_stops_example :
  ∃ s', export sql_safe_name_model project_liked initial_state
          = (Raise TypeError, s') ∧
        db_writes (trace s') =
          db_writes (trace initial_state)
          ++ map (upsert_statement project_liked "tasks") [task2].
Proof.
  apply (export_stops_at_first_failing_task sql_safe_name_model
           project_liked initial_state [task2] task3_liked [task4] "tasks").
  - vm_compute; reflexivity.
  - right. vm_compute; reflexivity.
  - vm_compute; reflexivity.
  - vm_compute; reflexivity.
Defined.

Lemma project_data_failure_example :
  ∃ e s1 s2,
    _project_data project_missing initial_state = (Raise e, s1) ∧
    project_data_cache s1 = None ∧
    _project_data project_missing s1 = (Raise e, s2) ∧
    project_data_cache s2 = None ∧
    trace s2 =
      trace initial_state
      ++ [ApiFindById (_project_id project_missing);
          ApiFindById (_project_id project_missing)].
Proof.
  apply (project_data_failure_is_not_cached project_missing initial_state).
  - reflexivity.
  - intros d H. vm_compute in H. discriminate H.
Defined.

Lemma main_synchronize_deletes_example :
  Engine (DbWrite (DELETE_TEMPLATE "tasks" "gid") [PStr "1"])
    ∈ (main sql_safe_name_model text_column_sql synchronize_args client234
         db123 [gid_field; followers_field; name_field]).2 ∧
  main_command synchronize_args = "synchronize".
Proof.
  assert (Engine (DbWrite (DELETE_TEMPLATE "tasks" "gid") [PStr "1"])
            ∈ (main sql_safe_name_model text_column_sql synchronize_args
                 client234 db123
                 [gid_field; followers_field; name_field]).2) as Hin.
  { apply list_elem_of_In. vm_compute.
    repeat (first [left; reflexivity | right]). }
  split; [exact Hin|].
  apply (main_deletes_only_under_synchronize sql_safe_name_model
           text_column_sql synchronize_args client234 db123
           [gid_field; followers_field; name_field]
           (DELETE_TEMPLATE "tasks" "gid") [PStr "1"] Hin).
  by eexists _, _.
Defined.
